(** * S3Service: the permission-probing service of S3Scanner

    A shallow embedding of [S3Service.py].  The bucket entity is a record that
    the probes update in place; the storage backend is a client whose answers
    may depend on every request issued so far; Python exceptions are the
    [Raise] outcomes of a state-and-error monad that keeps the bucket and the
    request log even when a probe fails. *)

From Stdlib Require Import ZArith.
From stdpp Require Import gmap strings list.

Local Open Scope string_scope.
Local Open Scope list_scope.

(** ** Enumerations of [s3Bucket.py] *)

Module Permission.
Inductive t := ALLOWED | DENIED | UNKNOWN.
#[global] Instance eq_dec : EqDecision t.
Proof. solve_decision. Defined.
(** Python's [==] on enumeration members. *)
Definition eqb (x y : t) : bool := bool_decide (x = y).
End Permission.

Module BucketExists.
Inductive t := YES | NO | UNKNOWN.
#[global] Instance eq_dec : EqDecision t.
Proof. solve_decision. Defined.
Definition eqb (x y : t) : bool := bool_decide (x = y).
End BucketExists.

(** ** Backend payloads *)

(** One entry of [foundACL['Grants']]: [grant['Grantee']['Type']], the optional
    [grant['Grantee']['URI']] and [grant['Permission']]. *)
Record Grantee := { grantee_Type : string; grantee_URI : option string }.
Record Grant := { grant_Grantee : Grantee; grant_Permission : string }.

(** The answer of [get_bucket_acl]; ['Grants' in foundACL] is [Grants <> None]. *)
Record ACL := { Grants : option (list Grant) }.

(** One entry of [page['Contents']], with the three fields the source reads
    from it unguarded, as the listing API returns them. *)
Record Item := { Key : string; LastModified : Z; Size : Z }.

(** One page of the [list_objects_v2] paginator; ['Contents' in page] is
    [Contents <> None]. *)
Record Page := { Contents : option (list Item) }.

(** ** Bucket entities *)

(** Modelled from the spec: the class [s3BucketObject] of [s3Bucket.py], built
    with [key], [last_modified] and [size]. *)
Record s3BucketObject := { key : string; last_modified : Z; size : Z }.

(** Modelled from the spec: the class [s3Bucket] of [s3Bucket.py]: a name, the
    existence status, the raw ACL once read, the ten permission flags, the
    objects found and the enumeration mark.  ([exists] is reserved, hence
    [exists_].) *)
Record s3Bucket := {
  name : string;
  exists_ : BucketExists.t;
  foundACL : option ACL;
  AuthUsersRead : Permission.t;
  AuthUsersWrite : Permission.t;
  AuthUsersReadACP : Permission.t;
  AuthUsersWriteACP : Permission.t;
  AuthUsersFullControl : Permission.t;
  AllUsersRead : Permission.t;
  AllUsersWrite : Permission.t;
  AllUsersReadACP : Permission.t;
  AllUsersWriteACP : Permission.t;
  AllUsersFullControl : Permission.t;
  objects : list s3BucketObject;
  objects_enumerated : bool
}.

(** Modelled from the spec: [s3Bucket(name)], every status at its default. *)
Definition s3Bucket_init (n : string) : s3Bucket :=
  {| name := n; exists_ := BucketExists.UNKNOWN; foundACL := None;
     AuthUsersRead := Permission.UNKNOWN; AuthUsersWrite := Permission.UNKNOWN;
     AuthUsersReadACP := Permission.UNKNOWN; AuthUsersWriteACP := Permission.UNKNOWN;
     AuthUsersFullControl := Permission.UNKNOWN;
     AllUsersRead := Permission.UNKNOWN; AllUsersWrite := Permission.UNKNOWN;
     AllUsersReadACP := Permission.UNKNOWN; AllUsersWriteACP := Permission.UNKNOWN;
     AllUsersFullControl := Permission.UNKNOWN;
     objects := []; objects_enumerated := false |}.

(** Attribute assignments [bucket.<field> = v]. *)
Definition set_exists (v : BucketExists.t) (b : s3Bucket) : s3Bucket :=
  {| name := name b; exists_ := v; foundACL := foundACL b;
     AuthUsersRead := AuthUsersRead b; AuthUsersWrite := AuthUsersWrite b;
     AuthUsersReadACP := AuthUsersReadACP b; AuthUsersWriteACP := AuthUsersWriteACP b;
     AuthUsersFullControl := AuthUsersFullControl b;
     AllUsersRead := AllUsersRead b; AllUsersWrite := AllUsersWrite b;
     AllUsersReadACP := AllUsersReadACP b; AllUsersWriteACP := AllUsersWriteACP b;
     AllUsersFullControl := AllUsersFullControl b;
     objects := objects b; objects_enumerated := objects_enumerated b |}.

Definition set_foundACL (v : option ACL) (b : s3Bucket) : s3Bucket :=
  {| name := name b; exists_ := exists_ b; foundACL := v;
     AuthUsersRead := AuthUsersRead b; AuthUsersWrite := AuthUsersWrite b;
     AuthUsersReadACP := AuthUsersReadACP b; AuthUsersWriteACP := AuthUsersWriteACP b;
     AuthUsersFullControl := AuthUsersFullControl b;
     AllUsersRead := AllUsersRead b; AllUsersWrite := AllUsersWrite b;
     AllUsersReadACP := AllUsersReadACP b; AllUsersWriteACP := AllUsersWriteACP b;
     AllUsersFullControl := AllUsersFullControl b;
     objects := objects b; objects_enumerated := objects_enumerated b |}.

Definition set_AuthUsersRead (v : Permission.t) (b : s3Bucket) : s3Bucket :=
  {| name := name b; exists_ := exists_ b; foundACL := foundACL b;
     AuthUsersRead := v; AuthUsersWrite := AuthUsersWrite b;
     AuthUsersReadACP := AuthUsersReadACP b; AuthUsersWriteACP := AuthUsersWriteACP b;
     AuthUsersFullControl := AuthUsersFullControl b;
     AllUsersRead := AllUsersRead b; AllUsersWrite := AllUsersWrite b;
     AllUsersReadACP := AllUsersReadACP b; AllUsersWriteACP := AllUsersWriteACP b;
     AllUsersFullControl := AllUsersFullControl b;
     objects := objects b; objects_enumerated := objects_enumerated b |}.

Definition set_AuthUsersWrite (v : Permission.t) (b : s3Bucket) : s3Bucket :=
  {| name := name b; exists_ := exists_ b; foundACL := foundACL b;
     AuthUsersRead := AuthUsersRead b; AuthUsersWrite := v;
     AuthUsersReadACP := AuthUsersReadACP b; AuthUsersWriteACP := AuthUsersWriteACP b;
     AuthUsersFullControl := AuthUsersFullControl b;
     AllUsersRead := AllUsersRead b; AllUsersWrite := AllUsersWrite b;
     AllUsersReadACP := AllUsersReadACP b; AllUsersWriteACP := AllUsersWriteACP b;
     AllUsersFullControl := AllUsersFullControl b;
     objects := objects b; objects_enumerated := objects_enumerated b |}.

Definition set_AuthUsersReadACP (v : Permission.t) (b : s3Bucket) : s3Bucket :=
  {| name := name b; exists_ := exists_ b; foundACL := foundACL b;
     AuthUsersRead := AuthUsersRead b; AuthUsersWrite := AuthUsersWrite b;
     AuthUsersReadACP := v; AuthUsersWriteACP := AuthUsersWriteACP b;
     AuthUsersFullControl := AuthUsersFullControl b;
     AllUsersRead := AllUsersRead b; AllUsersWrite := AllUsersWrite b;
     AllUsersReadACP := AllUsersReadACP b; AllUsersWriteACP := AllUsersWriteACP b;
     AllUsersFullControl := AllUsersFullControl b;
     objects := objects b; objects_enumerated := objects_enumerated b |}.

Definition set_AuthUsersWriteACP (v : Permission.t) (b : s3Bucket) : s3Bucket :=
  {| name := name b; exists_ := exists_ b; foundACL := foundACL b;
     AuthUsersRead := AuthUsersRead b; AuthUsersWrite := AuthUsersWrite b;
     AuthUsersReadACP := AuthUsersReadACP b; AuthUsersWriteACP := v;
     AuthUsersFullControl := AuthUsersFullControl b;
     AllUsersRead := AllUsersRead b; AllUsersWrite := AllUsersWrite b;
     AllUsersReadACP := AllUsersReadACP b; AllUsersWriteACP := AllUsersWriteACP b;
     AllUsersFullControl := AllUsersFullControl b;
     objects := objects b; objects_enumerated := objects_enumerated b |}.

Definition set_AuthUsersFullControl (v : Permission.t) (b : s3Bucket) : s3Bucket :=
  {| name := name b; exists_ := exists_ b; foundACL := foundACL b;
     AuthUsersRead := AuthUsersRead b; AuthUsersWrite := AuthUsersWrite b;
     AuthUsersReadACP := AuthUsersReadACP b; AuthUsersWriteACP := AuthUsersWriteACP b;
     AuthUsersFullControl := v;
     AllUsersRead := AllUsersRead b; AllUsersWrite := AllUsersWrite b;
     AllUsersReadACP := AllUsersReadACP b; AllUsersWriteACP := AllUsersWriteACP b;
     AllUsersFullControl := AllUsersFullControl b;
     objects := objects b; objects_enumerated := objects_enumerated b |}.

Definition set_AllUsersRead (v : Permission.t) (b : s3Bucket) : s3Bucket :=
  {| name := name b; exists_ := exists_ b; foundACL := foundACL b;
     AuthUsersRead := AuthUsersRead b; AuthUsersWrite := AuthUsersWrite b;
     AuthUsersReadACP := AuthUsersReadACP b; AuthUsersWriteACP := AuthUsersWriteACP b;
     AuthUsersFullControl := AuthUsersFullControl b;
     AllUsersRead := v; AllUsersWrite := AllUsersWrite b;
     AllUsersReadACP := AllUsersReadACP b; AllUsersWriteACP := AllUsersWriteACP b;
     AllUsersFullControl := AllUsersFullControl b;
     objects := objects b; objects_enumerated := objects_enumerated b |}.

Definition set_AllUsersWrite (v : Permission.t) (b : s3Bucket) : s3Bucket :=
  {| name := name b; exists_ := exists_ b; foundACL := foundACL b;
     AuthUsersRead := AuthUsersRead b; AuthUsersWrite := AuthUsersWrite b;
     AuthUsersReadACP := AuthUsersReadACP b; AuthUsersWriteACP := AuthUsersWriteACP b;
     AuthUsersFullControl := AuthUsersFullControl b;
     AllUsersRead := AllUsersRead b; AllUsersWrite := v;
     AllUsersReadACP := AllUsersReadACP b; AllUsersWriteACP := AllUsersWriteACP b;
     AllUsersFullControl := AllUsersFullControl b;
     objects := objects b; objects_enumerated := objects_enumerated b |}.

Definition set_AllUsersReadACP (v : Permission.t) (b : s3Bucket) : s3Bucket :=
  {| name := name b; exists_ := exists_ b; foundACL := foundACL b;
     AuthUsersRead := AuthUsersRead b; AuthUsersWrite := AuthUsersWrite b;
     AuthUsersReadACP := AuthUsersReadACP b; AuthUsersWriteACP := AuthUsersWriteACP b;
     AuthUsersFullControl := AuthUsersFullControl b;
     AllUsersRead := AllUsersRead b; AllUsersWrite := AllUsersWrite b;
     AllUsersReadACP := v; AllUsersWriteACP := AllUsersWriteACP b;
     AllUsersFullControl := AllUsersFullControl b;
     objects := objects b; objects_enumerated := objects_enumerated b |}.

Definition set_AllUsersWriteACP (v : Permission.t) (b : s3Bucket) : s3Bucket :=
  {| name := name b; exists_ := exists_ b; foundACL := foundACL b;
     AuthUsersRead := AuthUsersRead b; AuthUsersWrite := AuthUsersWrite b;
     AuthUsersReadACP := AuthUsersReadACP b; AuthUsersWriteACP := AuthUsersWriteACP b;
     AuthUsersFullControl := AuthUsersFullControl b;
     AllUsersRead := AllUsersRead b; AllUsersWrite := AllUsersWrite b;
     AllUsersReadACP := AllUsersReadACP b; AllUsersWriteACP := v;
     AllUsersFullControl := AllUsersFullControl b;
     objects := objects b; objects_enumerated := objects_enumerated b |}.

Definition set_AllUsersFullControl (v : Permission.t) (b : s3Bucket) : s3Bucket :=
  {| name := name b; exists_ := exists_ b; foundACL := foundACL b;
     AuthUsersRead := AuthUsersRead b; AuthUsersWrite := AuthUsersWrite b;
     AuthUsersReadACP := AuthUsersReadACP b; AuthUsersWriteACP := AuthUsersWriteACP b;
     AuthUsersFullControl := AuthUsersFullControl b;
     AllUsersRead := AllUsersRead b; AllUsersWrite := AllUsersWrite b;
     AllUsersReadACP := AllUsersReadACP b; AllUsersWriteACP := AllUsersWriteACP b;
     AllUsersFullControl := v;
     objects := objects b; objects_enumerated := objects_enumerated b |}.

Definition set_objects (v : list s3BucketObject) (b : s3Bucket) : s3Bucket :=
  {| name := name b; exists_ := exists_ b; foundACL := foundACL b;
     AuthUsersRead := AuthUsersRead b; AuthUsersWrite := AuthUsersWrite b;
     AuthUsersReadACP := AuthUsersReadACP b; AuthUsersWriteACP := AuthUsersWriteACP b;
     AuthUsersFullControl := AuthUsersFullControl b;
     AllUsersRead := AllUsersRead b; AllUsersWrite := AllUsersWrite b;
     AllUsersReadACP := AllUsersReadACP b; AllUsersWriteACP := AllUsersWriteACP b;
     AllUsersFullControl := AllUsersFullControl b;
     objects := v; objects_enumerated := objects_enumerated b |}.

Definition set_objects_enumerated (v : bool) (b : s3Bucket) : s3Bucket :=
  {| name := name b; exists_ := exists_ b; foundACL := foundACL b;
     AuthUsersRead := AuthUsersRead b; AuthUsersWrite := AuthUsersWrite b;
     AuthUsersReadACP := AuthUsersReadACP b; AuthUsersWriteACP := AuthUsersWriteACP b;
     AuthUsersFullControl := AuthUsersFullControl b;
     AllUsersRead := AllUsersRead b; AllUsersWrite := AllUsersWrite b;
     AllUsersReadACP := AllUsersReadACP b; AllUsersWriteACP := AllUsersWriteACP b;
     AllUsersFullControl := AllUsersFullControl b;
     objects := objects b; objects_enumerated := v |}.

(** Modelled from the spec: the method [s3Bucket.addObject], which appends the
    object to the bucket's collection, keeping discovery order and
    duplicates. *)
Definition addObject (obj : s3BucketObject) (b : s3Bucket) : s3Bucket :=
  set_objects (objects b ++ [obj]) b.

(** ** The storage backend *)

(** The requests the service sends.  A page drawn from the paginator is a
    [list_objects_v2] request without [MaxKeys]. *)
Inductive request :=
| HeadBucket (Bucket : string)
| GetBucketAcl (Bucket : string)
| ListObjectsV2 (Bucket : string) (MaxKeys : option nat)
| PutObject (Bucket Key : string) (Body : list Byte.byte)
| DeleteObject (Bucket Key : string)
| PutBucketAcl (args : gmap string string).

(** A backend call answers or fails with a [ClientError] whose
    [e.response['Error']['Code']] is [code].  These are the responses of the
    backend; an exception the client library raises without a response (a
    rejected parameter, a lost connection) is caught by no handler of the
    service and lies outside this model. *)
Inductive result (A : Type) := Ok (a : A) | Failed (code : string).
Arguments Ok {A} a.
Arguments Failed {A} code.

(** [self.s3_client]: each operation sees the requests issued so far, so that
    a later answer may depend on an earlier request.  [paginate] gives the
    pages in the order the iterator yields them; a failed entry is the fetch
    at which the iterator raises. *)
Record S3Client := {
  head_bucket : list request -> string -> result unit;
  get_bucket_acl : list request -> string -> result ACL;
  list_objects_v2 : list request -> string -> nat -> result unit;
  put_object : list request -> string -> string -> list Byte.byte -> result unit;
  delete_object : list request -> string -> string -> result unit;
  put_bucket_acl : list request -> gmap string string -> result unit;
  paginate : list request -> string -> list (result Page)
}.

(** ** Exceptions and the probe monad *)

Inductive exn :=
| ValueError (msg : string)
| Exception (msg : string)
| AccessDeniedException (msg : string)
| ClientError (code : string).

Inductive outcome (A : Type) := Return (a : A) | Raise (e : exn).
Arguments Return {A} a.
Arguments Raise {A} e.

(** What a probe can change: the bucket it was handed, the requests sent and
    the lines printed. *)
Record world := {
  bucket : s3Bucket;
  requests : list request;
  stdout : list string
}.

Definition M (A : Type) : Type := world -> outcome A * world.

Definition ret {A} (a : A) : M A := fun w => (Return a, w).

Definition bind {A B} (m : M A) (k : A -> M B) : M B :=
  fun w => match m w with
           | (Return a, w') => k a w'
           | (Raise e, w') => (Raise e, w')
           end.

Definition raise {A} (e : exn) : M A := fun w => (Raise e, w).

Declare Scope probe_scope.
Delimit Scope probe_scope with probe.
Notation "x <- c ;; k" := (bind c (fun x => k))
  (at level 100, c at next level, right associativity) : probe_scope.
Notation "c ;;; k" := (bind c (fun _ => k))
  (at level 100, right associativity) : probe_scope.
Local Open Scope probe_scope.

(** [try: body / except ClientError as e: handler]: only a [ClientError] is
    caught; the handler receives its error code. *)
Definition try_except_ClientError {A} (body : M A) (handler : string -> M A) : M A :=
  fun w => match body w with
           | (Raise (ClientError code), w') => handler code w'
           | r => r
           end.

Definition get_bucket : M s3Bucket := fun w => (Return (bucket w), w).

Definition modify_bucket (f : s3Bucket -> s3Bucket) : M unit :=
  fun w => (Return tt, {| bucket := f (bucket w); requests := requests w; stdout := stdout w |}).

Definition print (line : string) : M unit :=
  fun w => (Return tt, {| bucket := bucket w; requests := requests w; stdout := stdout w ++ [line] |}).

(** Sending [r]: the answer is computed from the requests sent before, then
    [r] is logged. *)
Definition send {A} (r : request) (answer : list request -> result A) : M A :=
  fun w =>
    let w' := {| bucket := bucket w; requests := requests w ++ [r]; stdout := stdout w |} in
    match answer (requests w) with
    | Ok a => (Return a, w')
    | Failed code => (Raise (ClientError code), w')
    end.


(** ** The service *)

Definition allUsersURI : string := "uri=http://acs.amazonaws.com/groups/global/AllUsers".
Definition authUsersURI : string := "uri=http://acs.amazonaws.com/groups/global/AuthenticatedUsers".

(** The test every handler repeats inline:
    [code == "AccessDenied" or code == "AllAccessDisabled"]. *)
Definition access_denied_class (code : string) : bool :=
  String.eqb code "AccessDenied" || String.eqb code "AllAccessDisabled".

Record S3Service := {
  aws_creds_configured : bool;
  s3_client : S3Client
}.

(** [session.get_credentials()], with its [access_key]. *)
Record Credentials := { access_key : option string }.

(** [S3Service.__init__]: [signed] is [boto3.client('s3')], [unsigned] the
    client configured with [signature_version=UNSIGNED]. *)
Definition S3Service_init (forceNoCreds : bool) (credentials : option Credentials)
    (signed unsigned : S3Client) : S3Service :=
  if forceNoCreds
     || match credentials with
        | None => true
        | Some c => match access_key c with None => true | Some _ => false end
        end
  then {| aws_creds_configured := false; s3_client := unsigned |}
  else {| aws_creds_configured := true; s3_client := signed |}.

(** *** [parse_found_acl] *)

Definition grantee_URI_is (grant : Grant) (uri : string) : bool :=
  match grantee_URI (grant_Grantee grant) with
  | Some u => String.eqb u uri
  | None => false
  end.

(** The body of [for grant in bucket.foundACL['Grants']]. *)
Definition parse_grant (b : s3Bucket) (grant : Grant) : s3Bucket :=
  if String.eqb (grantee_Type (grant_Grantee grant)) "Group" then
    if grantee_URI_is grant "http://acs.amazonaws.com/groups/global/AuthenticatedUsers" then
      if String.eqb (grant_Permission grant) "FULL_CONTROL" then
        set_AuthUsersFullControl Permission.ALLOWED
          (set_AuthUsersWriteACP Permission.ALLOWED
            (set_AuthUsersReadACP Permission.ALLOWED
              (set_AuthUsersWrite Permission.ALLOWED
                (set_AuthUsersRead Permission.ALLOWED b))))
      else if String.eqb (grant_Permission grant) "READ" then
        set_AuthUsersRead Permission.ALLOWED b
      else if String.eqb (grant_Permission grant) "READ_ACP" then
        set_AuthUsersReadACP Permission.ALLOWED b
      else if String.eqb (grant_Permission grant) "WRITE" then
        set_AuthUsersWrite Permission.ALLOWED b
      else if String.eqb (grant_Permission grant) "WRITE_ACP" then
        set_AuthUsersWriteACP Permission.ALLOWED b
      else b
    else if grantee_URI_is grant "http://acs.amazonaws.com/groups/global/AllUsers" then
      if String.eqb (grant_Permission grant) "FULL_CONTROL" then
        set_AllUsersFullControl Permission.ALLOWED
          (set_AllUsersWriteACP Permission.ALLOWED
            (set_AllUsersReadACP Permission.ALLOWED
              (set_AllUsersWrite Permission.ALLOWED
                (set_AllUsersRead Permission.ALLOWED b))))
      else if String.eqb (grant_Permission grant) "READ" then
        set_AllUsersRead Permission.ALLOWED b
      else if String.eqb (grant_Permission grant) "READ_ACP" then
        set_AllUsersReadACP Permission.ALLOWED b
      else if String.eqb (grant_Permission grant) "WRITE" then
        set_AllUsersWrite Permission.ALLOWED b
      else if String.eqb (grant_Permission grant) "WRITE_ACP" then
        set_AllUsersWriteACP Permission.ALLOWED b
      else b
    else b
  else b.

(** One closing test: [if bucket.X == Permission.UNKNOWN: bucket.X =
    Permission.DENIED], for the attribute read by [get] and assigned by
    [set]. *)
Definition unknown_to_denied (get : s3Bucket -> Permission.t)
    (set : Permission.t -> s3Bucket -> s3Bucket) (b : s3Bucket) : s3Bucket :=
  if Permission.eqb (get b) Permission.UNKNOWN then set Permission.DENIED b else b.

(** The ten closing tests, in the order of the source. *)
Definition deny_unknown (b : s3Bucket) : s3Bucket :=
  let b := unknown_to_denied AuthUsersRead set_AuthUsersRead b in
  let b := unknown_to_denied AuthUsersWrite set_AuthUsersWrite b in
  let b := unknown_to_denied AuthUsersReadACP set_AuthUsersReadACP b in
  let b := unknown_to_denied AuthUsersWriteACP set_AuthUsersWriteACP b in
  let b := unknown_to_denied AuthUsersFullControl set_AuthUsersFullControl b in
  let b := unknown_to_denied AllUsersRead set_AllUsersRead b in
  let b := unknown_to_denied AllUsersWrite set_AllUsersWrite b in
  let b := unknown_to_denied AllUsersReadACP set_AllUsersReadACP b in
  let b := unknown_to_denied AllUsersWriteACP set_AllUsersWriteACP b in
  unknown_to_denied AllUsersFullControl set_AllUsersFullControl b.

(** [parse_found_acl] sends nothing and raises nothing: it is a function of
    the bucket. *)
Definition parse_found_acl (b : s3Bucket) : s3Bucket :=
  match foundACL b with
  | None => b
  | Some acl =>
      match Grants acl with
      | Some grants => deny_unknown (fold_left parse_grant grants b)
      | None => b
      end
  end.

(** *** The probes *)

(** How the paging loop of [enumerate_bucket_objects] was left: by running out
    of pages, or by its [return]. *)
Inductive flow := Fallthrough | Returned.

(** [s3BucketObject(key=item['Key'], last_modified=item['LastModified'],
    size=item['Size'])]. *)
Definition object_of_item (item : Item) : s3BucketObject :=
  {| key := Key item; last_modified := LastModified item; size := Size item |}.

(** [for item in page['Contents']: bucket.addObject(...)]. *)
Definition add_items (items : list Item) (b : s3Bucket) : s3Bucket :=
  fold_left (fun b item => addObject (object_of_item item) b) items b.

(** The grant lists of [check_perm_write_acl], each built by the appends of
    the source in their order. *)
Definition readURIs (b : s3Bucket) : list string :=
  let l := [] in
  let l := if Permission.eqb (AuthUsersRead b) Permission.ALLOWED then l ++ [authUsersURI] else l in
  if Permission.eqb (AllUsersRead b) Permission.ALLOWED then l ++ [allUsersURI] else l.

Definition writeURIs (b : s3Bucket) : list string :=
  let l := [] in
  let l := if Permission.eqb (AuthUsersWrite b) Permission.ALLOWED then l ++ [authUsersURI] else l in
  if Permission.eqb (AllUsersWrite b) Permission.ALLOWED then l ++ [allUsersURI] else l.

Definition readAcpURIs (b : s3Bucket) : list string :=
  let l := [] in
  let l := if Permission.eqb (AuthUsersReadACP b) Permission.ALLOWED then l ++ [authUsersURI] else l in
  if Permission.eqb (AllUsersReadACP b) Permission.ALLOWED then l ++ [allUsersURI] else l.

Definition fullControlURIs (b : s3Bucket) : list string :=
  let l := [] in
  let l := if Permission.eqb (AuthUsersFullControl b) Permission.ALLOWED then l ++ [authUsersURI] else l in
  if Permission.eqb (AllUsersFullControl b) Permission.ALLOWED then l ++ [allUsersURI] else l.

Section Probes.

Variable self : S3Service.

Definition writeAcpURIs (b : s3Bucket) : list string :=
  let l := [] in
  let l := if Permission.eqb (AuthUsersWriteACP b) Permission.ALLOWED then l ++ [authUsersURI] else l in
  let l := if Permission.eqb (AllUsersWriteACP b) Permission.ALLOWED then l ++ [allUsersURI] else l in
  if aws_creds_configured self then l ++ [authUsersURI] else l ++ [allUsersURI].

(** [args], the keyword arguments of [put_bucket_acl]. *)
Definition acl_args (b : s3Bucket) : gmap string string :=
  let args : gmap string string := {[ "Bucket" := name b ]} in
  let args := if Nat.ltb 0 (length (readURIs b))
              then <[ "GrantRead" := String.concat "," (readURIs b) ]> args else args in
  let args := if Nat.ltb 0 (length (writeURIs b))
              then <[ "GrantWrite" := String.concat "," (writeURIs b) ]> args else args in
  let args := if Nat.ltb 0 (length (readAcpURIs b))
              then <[ "GrantReadACP" := String.concat "," (readAcpURIs b) ]> args else args in
  let args := if Nat.ltb 0 (length (writeAcpURIs b))
              then <[ "GrantWriteACP" := String.concat "," (writeAcpURIs b) ]> args else args in
  if Nat.ltb 0 (length (fullControlURIs b))
  then <[ "GrantFullControl" := String.concat "," (fullControlURIs b) ]> args else args.

(** The [isinstance] test of the source cannot fail here: the argument is a
    bucket by its type. *)
Definition check_bucket_exists : M unit :=
  b <- get_bucket ;;
  bucket_exists <-
    try_except_ClientError
      (send (HeadBucket (name b)) (fun log => head_bucket (s3_client self) log (name b)) ;;;
       ret true)
      (fun code => if String.eqb code "404" then ret false else ret true) ;;
  modify_bucket (set_exists (if bucket_exists then BucketExists.YES else BucketExists.NO)).

Definition check_perm_read_acl : M unit :=
  b <- get_bucket ;;
  if negb (BucketExists.eqb (exists_ b) BucketExists.YES)
  then raise (ValueError "Bucket might not exist")
  else
    try_except_ClientError
      (acl <- send (GetBucketAcl (name b)) (fun log => get_bucket_acl (s3_client self) log (name b)) ;;
       modify_bucket (set_foundACL (Some acl)))
      (fun code =>
         if access_denied_class code then
           if aws_creds_configured self
           then modify_bucket (set_AuthUsersReadACP Permission.DENIED)
           else modify_bucket (set_AllUsersReadACP Permission.DENIED)
         else raise (ClientError code)) ;;;
    modify_bucket parse_found_acl.

Definition check_perm_read : M unit :=
  b <- get_bucket ;;
  if negb (BucketExists.eqb (exists_ b) BucketExists.YES)
  then raise (ValueError "Bucket might not exist")
  else
    list_bucket_perm_allowed <-
      try_except_ClientError
        (send (ListObjectsV2 (name b) (Some 0))
              (fun log => list_objects_v2 (s3_client self) log (name b) 0) ;;;
         ret true)
        (fun code =>
           if access_denied_class code then ret false
           else
             print (String.append "ERROR: Error while checking bucket " (name b)) ;;;
             raise (ClientError code)) ;;
    if aws_creds_configured self then
      b <- get_bucket ;;
      if negb (Permission.eqb (AllUsersRead b) Permission.ALLOWED)
      then modify_bucket (set_AuthUsersRead
             (if list_bucket_perm_allowed then Permission.ALLOWED else Permission.DENIED))
      else ret tt
    else
      modify_bucket (set_AllUsersRead
        (if list_bucket_perm_allowed then Permission.ALLOWED else Permission.DENIED)).

(** [timestamp] is [str(datetime.datetime.now().timestamp())], the reading of
    the clock at the call. *)
Definition check_perm_write (timestamp : string) : M unit :=
  b <- get_bucket ;;
  if negb (BucketExists.eqb (exists_ b) BucketExists.YES)
  then raise (ValueError "Bucket might not exist")
  else
    let timestamp_file := String.append timestamp ".txt" in
    try_except_ClientError
      (send (PutObject (name b) timestamp_file [])
            (fun log => put_object (s3_client self) log (name b) timestamp_file []) ;;;
       (if aws_creds_configured self then
          b <- get_bucket ;;
          if negb (Permission.eqb (AllUsersWrite b) Permission.ALLOWED)
          then modify_bucket (set_AuthUsersWrite Permission.ALLOWED)
          else ret tt
        else modify_bucket (set_AllUsersWrite Permission.ALLOWED)) ;;;
       send (DeleteObject (name b) timestamp_file)
            (fun log => delete_object (s3_client self) log (name b) timestamp_file))
      (fun code =>
         if access_denied_class code then
           if aws_creds_configured self
           then modify_bucket (set_AuthUsersWrite Permission.DENIED)
           else modify_bucket (set_AllUsersWrite Permission.DENIED)
         else raise (ClientError code)).

Definition check_perm_write_acl : M unit :=
  b <- get_bucket ;;
  if negb (BucketExists.eqb (exists_ b) BucketExists.YES)
  then raise (ValueError "Bucket might not exist")
  else
    let args := acl_args b in
    try_except_ClientError
      (send (PutBucketAcl args) (fun log => put_bucket_acl (s3_client self) log args) ;;;
       if aws_creds_configured self then
         b <- get_bucket ;;
         if negb (Permission.eqb (AllUsersWriteACP b) Permission.ALLOWED)
         then modify_bucket (set_AuthUsersWriteACP Permission.ALLOWED)
         else ret tt
       else modify_bucket (set_AllUsersWriteACP Permission.ALLOWED))
      (fun code =>
         if access_denied_class code then
           if aws_creds_configured self
           then modify_bucket (set_AuthUsersWriteACP Permission.DENIED)
           else modify_bucket (set_AllUsersWriteACP Permission.DENIED)
         else raise (ClientError code)).

(** [for page in paginator.paginate(Bucket=bucket.name)]: each page is
    fetched when the loop reaches it. *)
Fixpoint for_pages (Bucket : string) (pages : list (result Page)) : M flow :=
  match pages with
  | [] => ret Fallthrough
  | fetch :: rest =>
      page <- send (ListObjectsV2 Bucket None) (fun _ => fetch) ;;
      match Contents page with
      | None => modify_bucket (set_objects_enumerated true) ;;; ret Returned
      | Some items => modify_bucket (add_items items) ;;; for_pages Bucket rest
      end
  end.

Definition enumerate_bucket_objects : M unit :=
  b <- get_bucket ;;
  (if BucketExists.eqb (exists_ b) BucketExists.UNKNOWN
   then check_bucket_exists else ret tt) ;;;
  b <- get_bucket ;;
  if BucketExists.eqb (exists_ b) BucketExists.NO
  then raise (Exception "Bucket doesn't exist")
  else
    left <-
      try_except_ClientError
        (fun w => for_pages (name b) (paginate (s3_client self) (requests w) (name b)) w)
        (fun code =>
           if access_denied_class code
           then raise (AccessDeniedException "AccessDenied while enumerating bucket objects")
           else ret Fallthrough) ;;
    match left with
    | Returned => ret tt
    | Fallthrough => modify_bucket (set_objects_enumerated true)
    end.

End Probes.

(** ** Sample backends and buckets *)

(** A backend with fixed answers, but for the ACL read and the object
    delete, which may look at the requests already sent. *)
Definition sample_client (head : result unit) (acl : list request -> result ACL)
    (listing put : result unit) (del : list request -> result unit)
    (put_acl : result unit) (pages : list (result Page)) : S3Client :=
  {| head_bucket := fun _ _ => head;
     get_bucket_acl := fun log _ => acl log;
     list_objects_v2 := fun _ _ _ => listing;
     put_object := fun _ _ _ _ => put;
     delete_object := fun log _ _ => del log;
     put_bucket_acl := fun _ _ => put_acl;
     paginate := fun _ _ => pages |}.

Definition empty_acl : ACL := {| Grants := Some [] |}.

(** A backend on which every request succeeds. *)
Definition open_client : S3Client :=
  sample_client (Ok tt) (fun _ => Ok empty_acl) (Ok tt) (Ok tt) (fun _ => Ok tt) (Ok tt) [].

(** A backend refusing every request. *)
Definition closed_client : S3Client :=
  sample_client (Failed "AccessDenied") (fun _ => Failed "AccessDenied") (Failed "AccessDenied")
    (Failed "AccessDenied") (fun _ => Failed "AccessDenied") (Failed "AccessDenied")
    [Failed "AccessDenied"].

(** A backend accepting uploads and failing every delete with [code]. *)
Definition undeletable_client (code : string) : S3Client :=
  sample_client (Ok tt) (fun _ => Ok empty_acl) (Ok tt) (Ok tt) (fun _ => Failed code) (Ok tt) [].

Definition is_GetBucketAcl (r : request) : bool :=
  match r with GetBucketAcl _ => true | _ => false end.

Definition group_grant (uri permission : string) : Grant :=
  {| grant_Grantee := {| grantee_Type := "Group"; grantee_URI := Some uri |};
     grant_Permission := permission |}.

Definition public_acl : ACL :=
  {| Grants := Some [group_grant "http://acs.amazonaws.com/groups/global/AllUsers" "READ";
                     group_grant "http://acs.amazonaws.com/groups/global/AllUsers" "READ_ACP"] |}.

(** A bucket whose owner withdraws the public grants after the first ACL
    read: that read answers [public_acl], every later request is refused. *)
Definition revoking_client : S3Client :=
  sample_client (Ok tt)
    (fun log => if existsb is_GetBucketAcl log then Failed "AccessDenied" else Ok public_acl)
    (Failed "AccessDenied") (Failed "AccessDenied") (fun _ => Failed "AccessDenied")
    (Failed "AccessDenied") [].

Definition sample_item : Item := {| Key := "a.txt"; LastModified := 1600000000; Size := 3 |}.
Definition other_item : Item := {| Key := "b.txt"; LastModified := 1600000001; Size := 5 |}.

(** A listing whose pages are [pages]. *)
Definition listing_client (pages : list (result Page)) : S3Client :=
  sample_client (Ok tt) (fun _ => Ok empty_acl) (Ok tt) (Ok tt) (fun _ => Ok tt) (Ok tt) pages.

Definition anonymous (client : S3Client) : S3Service :=
  {| aws_creds_configured := false; s3_client := client |}.

Definition credentialed (client : S3Client) : S3Service :=
  {| aws_creds_configured := true; s3_client := client |}.

(** A bucket just found to exist. *)
Definition existing_bucket (n : string) : s3Bucket :=
  set_exists BucketExists.YES (s3Bucket_init n).

Definition initial_world (b : s3Bucket) : world :=
  {| bucket := b; requests := []; stdout := [] |}.

(** ** Vocabulary of the statements *)

(** The bucket as the success branch of [check_perm_write] leaves it. *)
Definition after_upload (self : S3Service) (b : s3Bucket) : s3Bucket :=
  if aws_creds_configured self
  then if Permission.eqb (AllUsersWrite b) Permission.ALLOWED
       then b else set_AuthUsersWrite Permission.ALLOWED b
  else set_AllUsersWrite Permission.ALLOWED b.

(** The flag assignment of the [except] branch of [check_perm_write]. *)
Definition write_denied (self : S3Service) (b : s3Bucket) : s3Bucket :=
  if aws_creds_configured self
  then set_AuthUsersWrite Permission.DENIED b
  else set_AllUsersWrite Permission.DENIED b.


(** The principals recorded as ALLOWED for one capability, AuthUsers first. *)
Definition granted_uris (auth all : Permission.t) : list string :=
  (if bool_decide (auth = Permission.ALLOWED) then [authUsersURI] else [])
  ++ (if bool_decide (all = Permission.ALLOWED) then [allUsersURI] else []).

(** The URI of the principal class the service tests. *)
Definition self_grant_URI (self : S3Service) : string :=
  if aws_creds_configured self then authUsersURI else allUsersURI.

(** A capability parameter as it is submitted: absent for an empty grant
    list, else the URIs joined by commas. *)
Definition grant_parameter (uris : list string) : option string :=
  match uris with
  | [] => None
  | _ :: _ => Some (String.concat "," uris)
  end.

(** The two principal classes and the five capabilities naming the ten
    flags. *)
Inductive principal := AuthUsers | AllUsers.
Inductive capability := Read | Write | ReadACP | WriteACP | FullControl.

#[global] Instance capability_eq_dec : EqDecision capability.
Proof. solve_decision. Defined.

Definition flag (p : principal) (c : capability) (b : s3Bucket) : Permission.t :=
  match p, c with
  | AuthUsers, Read => AuthUsersRead b
  | AuthUsers, Write => AuthUsersWrite b
  | AuthUsers, ReadACP => AuthUsersReadACP b
  | AuthUsers, WriteACP => AuthUsersWriteACP b
  | AuthUsers, FullControl => AuthUsersFullControl b
  | AllUsers, Read => AllUsersRead b
  | AllUsers, Write => AllUsersWrite b
  | AllUsers, ReadACP => AllUsersReadACP b
  | AllUsers, WriteACP => AllUsersWriteACP b
  | AllUsers, FullControl => AllUsersFullControl b
  end.

(** The grantee URI by which an ACL names a principal class. *)
Definition group_URI (p : principal) : string :=
  match p with
  | AuthUsers => "http://acs.amazonaws.com/groups/global/AuthenticatedUsers"
  | AllUsers => "http://acs.amazonaws.com/groups/global/AllUsers"
  end.

(** The capabilities an ACL permission value stands for. *)
Definition granted_capabilities (permission : string) : list capability :=
  if String.eqb permission "FULL_CONTROL" then [Read; Write; ReadACP; WriteACP; FullControl]
  else if String.eqb permission "READ" then [Read]
  else if String.eqb permission "READ_ACP" then [ReadACP]
  else if String.eqb permission "WRITE" then [Write]
  else if String.eqb permission "WRITE_ACP" then [WriteACP]
  else [].

(** [grant] gives capability [c] to principal class [p]: it is a grant to a
    Group grantee, its URI is the one of [p], and its permission value stands
    for [c]. *)
Definition grant_allows (grant : Grant) (p : principal) (c : capability) : bool :=
  String.eqb (grantee_Type (grant_Grantee grant)) "Group"
  && grantee_URI_is grant (group_URI p)
  && bool_decide (c ∈ granted_capabilities (grant_Permission grant)).

(** The closed-world default on one flag. *)
Definition deny_if_unknown (v : Permission.t) : Permission.t :=
  if Permission.eqb v Permission.UNKNOWN then Permission.DENIED else v.

(** [b'] differs from [b] in permission flags at most. *)
Definition same_identity (b b' : s3Bucket) : Prop :=
  name b' = name b /\ exists_ b' = exists_ b /\ foundACL b' = foundACL b /\
  objects b' = objects b /\ objects_enumerated b' = objects_enumerated b.

(** A page carrying [items], and a page without the "Contents" field. *)
Definition full_page (items : list Item) : result Page := Ok {| Contents := Some items |}.
Definition bare_page : result Page := Ok {| Contents := None |}.

(** The world in which [enumerate_bucket_objects] starts paging: the one it
    was called in, after [check_bucket_exists] when the existence of the
    bucket was UNKNOWN. *)
Definition paging_start (self : S3Service) (w : world) : world :=
  if BucketExists.eqb (exists_ (bucket w)) BucketExists.UNKNOWN
  then snd (check_bucket_exists self w) else w.

(** [n] page fetches on [Bucket]. *)
Definition page_fetches (Bucket : string) (n : nat) : list request :=
  repeat (ListObjectsV2 Bucket None) n.

(** [b'] is [b] with the flag of capability [c] for principal class [p] at
    [v], every other flag and every other field being as in [b]. *)
Definition assigns (p : principal) (c : capability) (v : Permission.t) (b b' : s3Bucket)
    : Prop :=
  flag p c b' = v /\
  (forall p' c', (p', c') <> (p, c) -> flag p' c' b' = flag p' c' b) /\
  same_identity b b'.

(** The flag of the mode of [self] for capability [c]: the one a probe of
    [self] reports on. *)
Definition mode_principal (self : S3Service) : principal :=
  if aws_creds_configured self then AuthUsers else AllUsers.

(** [b'] has the permission flags of [b]. *)
Definition same_flags (b b' : s3Bucket) : Prop :=
  forall p c, flag p c b' = flag p c b.

(** Assignment of [v] to the flag of capability [c] for the principal class
    [p]. *)
Definition set_flag (p : principal) (c : capability) (v : Permission.t) (b : s3Bucket)
    : s3Bucket :=
  match p, c with
  | AuthUsers, Read => set_AuthUsersRead v b
  | AuthUsers, Write => set_AuthUsersWrite v b
  | AuthUsers, ReadACP => set_AuthUsersReadACP v b
  | AuthUsers, WriteACP => set_AuthUsersWriteACP v b
  | AuthUsers, FullControl => set_AuthUsersFullControl v b
  | AllUsers, Read => set_AllUsersRead v b
  | AllUsers, Write => set_AllUsersWrite v b
  | AllUsers, ReadACP => set_AllUsersReadACP v b
  | AllUsers, WriteACP => set_AllUsersWriteACP v b
  | AllUsers, FullControl => set_AllUsersFullControl v b
  end.

(** [b'] is [b], or [b] with at most the flag of [c] for [p] assigned. *)
Definition writes_at_most (p : principal) (c : capability) (b b' : s3Bucket) : Prop :=
  b' = b \/ exists v, b' = set_flag p c v b.

(** [b'] is [b] with objects appended at most and the enumeration mark
    raised at most: name, stored ACL and flags are those of [b]. *)
Definition listing_grew (b b' : s3Bucket) : Prop :=
  name b' = name b /\ foundACL b' = foundACL b /\ same_flags b b' /\
  (exists found, objects b' = objects b ++ found) /\
  (objects_enumerated b = true -> objects_enumerated b' = true).

(** * Properties of the probes *)

(** ** Plumbing *)

Lemma not_YES_eqb (e : BucketExists.t) :
  e <> BucketExists.YES -> negb (BucketExists.eqb e BucketExists.YES) = true.
Proof. intros H. unfold BucketExists.eqb. rewrite bool_decide_eq_false_2; auto. Qed.

Lemma YES_eqb (e : BucketExists.t) :
  e = BucketExists.YES -> negb (BucketExists.eqb e BucketExists.YES) = false.
Proof. intros ->. reflexivity. Qed.

Lemma not_ALLOWED_eqb (p : Permission.t) :
  p <> Permission.ALLOWED -> negb (Permission.eqb p Permission.ALLOWED) = true.
Proof. intros H. unfold Permission.eqb. rewrite bool_decide_eq_false_2; auto. Qed.

(** Unfolds the monad of a probe whose guard has been decided. *)
Ltac probe :=
  unfold bind, get_bucket, try_except_ClientError, send, modify_bucket, raise, ret, print;
  simpl.

(** ** The existence guard *)

(** C7: on a bucket whose [exists] is not YES, each of the four permission
    probes raises the ValueError "Bucket might not exist" and changes nothing:
    no field of the bucket, no request sent. *)
Theorem probes_require_existing_bucket (self : S3Service) (timestamp : string) (w : world) :
  exists_ (bucket w) <> BucketExists.YES ->
  check_perm_read_acl self w = (Raise (ValueError "Bucket might not exist"), w) /\
  check_perm_read self w = (Raise (ValueError "Bucket might not exist"), w) /\
  check_perm_write self timestamp w = (Raise (ValueError "Bucket might not exist"), w) /\
  check_perm_write_acl self w = (Raise (ValueError "Bucket might not exist"), w).
Proof.
  intros H. apply not_YES_eqb in H.
  unfold check_perm_read_acl, check_perm_read, check_perm_write, check_perm_write_acl,
    bind, get_bucket.
  rewrite H. repeat split.
Qed.

Lemma probes_require_existing_bucket_witness :
  let w := initial_world (set_exists BucketExists.NO (s3Bucket_init "gone")) in
  check_perm_read_acl (anonymous open_client) w = (Raise (ValueError "Bucket might not exist"), w) /\
  check_perm_read (anonymous open_client) w = (Raise (ValueError "Bucket might not exist"), w) /\
  check_perm_write (anonymous open_client) "1600000000.5" w
    = (Raise (ValueError "Bucket might not exist"), w) /\
  check_perm_write_acl (anonymous open_client) w = (Raise (ValueError "Bucket might not exist"), w).
Proof.
  apply (probes_require_existing_bucket (anonymous open_client) "1600000000.5"
           (initial_world (set_exists BucketExists.NO (s3Bucket_init "gone")))).
  simpl. discriminate.
Defined.

(** ** The existence probe *)

(** C6: [check_bucket_exists] records NO exactly on the error code "404" and
    YES on every other answer, returns normally, and writes no other field of
    the bucket. *)
Theorem check_bucket_exists_records_status (self : S3Service) (w : world) :
  let answer := head_bucket (s3_client self) (requests w) (name (bucket w)) in
  let r := check_bucket_exists self w in
  fst r = Return tt /\
  requests (snd r) = requests w ++ [HeadBucket (name (bucket w))] /\
  (exists_ (bucket (snd r)) = BucketExists.NO <-> answer = Failed "404") /\
  (exists_ (bucket (snd r)) = BucketExists.YES <-> answer <> Failed "404") /\
  bucket (snd r) = set_exists (exists_ (bucket (snd r))) (bucket w).
Proof.
  cbv zeta. unfold check_bucket_exists, bind, get_bucket, try_except_ClientError, send.
  destruct (head_bucket _ _ _) as [[]|code]; simpl.
  - repeat split; try discriminate; try congruence.
  - destruct (String.eqb_spec code "404") as [->|Hne]; simpl.
    + repeat split; try discriminate; try congruence.
    + repeat split; try discriminate; try congruence.
Qed.

(** ** The ACL-read probe *)

(** C9, as amended: when the ACL read is refused on an existing bucket, the
    probe returns normally having set the flag of its mode to DENIED
    (AuthUsersReadACP with credentials, AllUsersReadACP without) and then run
    the interpretation routine on the result; on a bucket holding no stored
    ACL that routine changes nothing, so that flag is the only field
    written. *)
Theorem check_perm_read_acl_denied (self : S3Service) (w : world) (code : string) :
  exists_ (bucket w) = BucketExists.YES ->
  get_bucket_acl (s3_client self) (requests w) (name (bucket w)) = Failed code ->
  access_denied_class code = true ->
  let denied := if aws_creds_configured self
                then set_AuthUsersReadACP Permission.DENIED (bucket w)
                else set_AllUsersReadACP Permission.DENIED (bucket w) in
  check_perm_read_acl self w
    = (Return tt, {| bucket := parse_found_acl denied;
                     requests := requests w ++ [GetBucketAcl (name (bucket w))];
                     stdout := stdout w |}) /\
  (foundACL (bucket w) = None -> parse_found_acl denied = denied).
Proof.
  intros Hex Hacl Hcode denied. split.
  - unfold check_perm_read_acl, bind at 1, get_bucket.
    rewrite (YES_eqb _ Hex). probe. rewrite Hacl, Hcode.
    subst denied. destruct (aws_creds_configured self); reflexivity.
  - intros Hnone. subst denied. unfold parse_found_acl.
    destruct (aws_creds_configured self); simpl; rewrite Hnone; reflexivity.
Qed.

Lemma check_perm_read_acl_denied_witness :
  check_perm_read_acl (credentialed closed_client) (initial_world (existing_bucket "locked"))
    = (Return tt,
       {| bucket := set_AuthUsersReadACP Permission.DENIED (existing_bucket "locked");
          requests := [GetBucketAcl "locked"]; stdout := [] |}).
Proof.
  destruct (check_perm_read_acl_denied (credentialed closed_client)
              (initial_world (existing_bucket "locked")) "AccessDenied")
    as [Hrun _]; [reflexivity | reflexivity | reflexivity |].
  exact Hrun.
Defined.

(** C9 as stated fails once an ACL is stored.  An anonymous scan reads the
    public ACL of "b", finds listing refused, and asks for the ACL again after
    the owner withdrew the grants: the second ACL read is refused, yet
    AllUsersReadACP ends ALLOWED, and AllUsersRead, DENIED before the call,
    ends ALLOWED as well. *)
Lemma check_perm_read_acl_denied_counterexample :
  let self := anonymous revoking_client in
  let w1 := snd (bind (check_bucket_exists self)
                   (fun _ => bind (check_perm_read_acl self) (fun _ => check_perm_read self))
                   (initial_world (s3Bucket_init "b"))) in
  let r := check_perm_read_acl self w1 in
  exists_ (bucket w1) = BucketExists.YES /\
  get_bucket_acl (s3_client self) (requests w1) (name (bucket w1)) = Failed "AccessDenied" /\
  AllUsersRead (bucket w1) = Permission.DENIED /\
  fst r = Return tt /\
  AllUsersReadACP (bucket (snd r)) = Permission.ALLOWED /\
  AllUsersRead (bucket (snd r)) = Permission.ALLOWED.
Proof. vm_compute. repeat split. Qed.

(** ** The read and write probes *)

(** What [check_perm_read] does once the listing succeeded. *)
Lemma check_perm_read_allowed (self : S3Service) (w : world) :
  exists_ (bucket w) = BucketExists.YES ->
  list_objects_v2 (s3_client self) (requests w) (name (bucket w)) 0 = Ok tt ->
  check_perm_read self w
    = (Return tt,
       {| bucket := if aws_creds_configured self
                    then if Permission.eqb (AllUsersRead (bucket w)) Permission.ALLOWED
                         then bucket w
                         else set_AuthUsersRead Permission.ALLOWED (bucket w)
                    else set_AllUsersRead Permission.ALLOWED (bucket w);
          requests := requests w ++ [ListObjectsV2 (name (bucket w)) (Some 0)];
          stdout := stdout w |}).
Proof.
  intros Hex Hlist. unfold check_perm_read, bind at 1, get_bucket.
  rewrite (YES_eqb _ Hex). probe. rewrite Hlist.
  destruct (aws_creds_configured self); simpl; [|reflexivity].
  destruct (Permission.eqb (AllUsersRead (bucket w)) Permission.ALLOWED); reflexivity.
Qed.

(** [check_perm_write] by cases on the answers of the upload and of the
    delete that follows a successful upload. *)
Lemma check_perm_write_run (self : S3Service) (timestamp : string) (w : world) :
  exists_ (bucket w) = BucketExists.YES ->
  let b := bucket w in
  let timestamp_file := String.append timestamp ".txt" in
  let put := PutObject (name b) timestamp_file [] in
  let del := DeleteObject (name b) timestamp_file in
  check_perm_write self timestamp w =
  match put_object (s3_client self) (requests w) (name b) timestamp_file [] with
  | Failed code =>
      if access_denied_class code
      then (Return tt, {| bucket := write_denied self b;
                          requests := requests w ++ [put]; stdout := stdout w |})
      else (Raise (ClientError code),
            {| bucket := b; requests := requests w ++ [put]; stdout := stdout w |})
  | Ok _ =>
      match delete_object (s3_client self) (requests w ++ [put]) (name b) timestamp_file with
      | Ok _ => (Return tt, {| bucket := after_upload self b;
                               requests := (requests w ++ [put]) ++ [del];
                               stdout := stdout w |})
      | Failed code =>
          if access_denied_class code
          then (Return tt, {| bucket := write_denied self (after_upload self b);
                              requests := (requests w ++ [put]) ++ [del];
                              stdout := stdout w |})
          else (Raise (ClientError code),
                {| bucket := after_upload self b;
                   requests := (requests w ++ [put]) ++ [del];
                   stdout := stdout w |})
      end
  end.
Proof.
  intros Hex. cbv zeta. unfold check_perm_write, bind at 1, get_bucket.
  rewrite (YES_eqb _ Hex). unfold after_upload, write_denied. probe.
  destruct (put_object _ _ _ _ _) as [[]|code]; simpl.
  - destruct (aws_creds_configured self); simpl.
    + destruct (Permission.eqb (AllUsersWrite (bucket w)) Permission.ALLOWED); simpl;
        destruct (delete_object _ _ _ _) as [[]|code]; simpl; try reflexivity;
        destruct (access_denied_class code); reflexivity.
    + destruct (delete_object _ _ _ _) as [[]|code]; simpl; try reflexivity;
        destruct (access_denied_class code); reflexivity.
  - destruct (access_denied_class code); simpl; [|reflexivity].
    destruct (aws_creds_configured self); reflexivity.
Qed.

Lemma set_AllUsersRead_assigns (v : Permission.t) (b : s3Bucket) :
  assigns AllUsers Read v b (set_AllUsersRead v b).
Proof.
  split; [reflexivity|]. split; [|repeat split].
  intros p c Hne. destruct p, c; try reflexivity. elim Hne. reflexivity.
Qed.

Lemma set_AuthUsersRead_assigns (v : Permission.t) (b : s3Bucket) :
  assigns AuthUsers Read v b (set_AuthUsersRead v b).
Proof.
  split; [reflexivity|]. split; [|repeat split].
  intros p c Hne. destruct p, c; try reflexivity. elim Hne. reflexivity.
Qed.

Lemma set_AllUsersWrite_assigns (v : Permission.t) (b : s3Bucket) :
  assigns AllUsers Write v b (set_AllUsersWrite v b).
Proof.
  split; [reflexivity|]. split; [|repeat split].
  intros p c Hne. destruct p, c; try reflexivity. elim Hne. reflexivity.
Qed.

Lemma set_AuthUsersWrite_assigns (v : Permission.t) (b : s3Bucket) :
  assigns AuthUsers Write v b (set_AuthUsersWrite v b).
Proof.
  split; [reflexivity|]. split; [|repeat split].
  intros p c Hne. destruct p, c; try reflexivity. elim Hne. reflexivity.
Qed.

(** C5, as amended: when the listing of the read probe succeeds, and when the
    upload of the write probe succeeds and its cleanup delete is not refused
    with an access-denied-class code, a service without credentials sets the
    AllUsers flag of the capability to ALLOWED whatever it was; a service
    with credentials sets the AuthUsers flag to ALLOWED when the AllUsers
    flag is not ALLOWED, and otherwise leaves the bucket as it was.  In each
    case the flag named is the only field written. *)
Theorem successful_probe_flag_rule (self : S3Service) (timestamp : string) (w : world) :
  exists_ (bucket w) = BucketExists.YES ->
  let b := bucket w in
  let timestamp_file := String.append timestamp ".txt" in
  (list_objects_v2 (s3_client self) (requests w) (name b) 0 = Ok tt ->
   let r := check_perm_read self w in
   fst r = Return tt /\
   (aws_creds_configured self = false ->
    bucket (snd r) = set_AllUsersRead Permission.ALLOWED b /\
    assigns AllUsers Read Permission.ALLOWED b (bucket (snd r))) /\
   (aws_creds_configured self = true -> AllUsersRead b <> Permission.ALLOWED ->
    bucket (snd r) = set_AuthUsersRead Permission.ALLOWED b /\
    assigns AuthUsers Read Permission.ALLOWED b (bucket (snd r))) /\
   (aws_creds_configured self = true -> AllUsersRead b = Permission.ALLOWED ->
    bucket (snd r) = b)) /\
  (put_object (s3_client self) (requests w) (name b) timestamp_file [] = Ok tt ->
   (forall code,
      delete_object (s3_client self) (requests w ++ [PutObject (name b) timestamp_file []])
        (name b) timestamp_file = Failed code ->
      access_denied_class code = false) ->
   let r := check_perm_write self timestamp w in
   (delete_object (s3_client self) (requests w ++ [PutObject (name b) timestamp_file []])
      (name b) timestamp_file = Ok tt -> fst r = Return tt) /\
   (aws_creds_configured self = false ->
    bucket (snd r) = set_AllUsersWrite Permission.ALLOWED b /\
    assigns AllUsers Write Permission.ALLOWED b (bucket (snd r))) /\
   (aws_creds_configured self = true -> AllUsersWrite b <> Permission.ALLOWED ->
    bucket (snd r) = set_AuthUsersWrite Permission.ALLOWED b /\
    assigns AuthUsers Write Permission.ALLOWED b (bucket (snd r))) /\
   (aws_creds_configured self = true -> AllUsersWrite b = Permission.ALLOWED ->
    bucket (snd r) = b)).
Proof.
  intros Hex b timestamp_file. split.
  - intros Hlist r. subst r. rewrite (check_perm_read_allowed self w Hex Hlist). simpl.
    split; [reflexivity|]. split; [|split].
    + intros ->. split; [reflexivity | apply set_AllUsersRead_assigns].
    + intros -> Hne. apply not_ALLOWED_eqb in Hne. apply negb_true_iff in Hne.
      fold b. rewrite Hne. split; [reflexivity | apply set_AuthUsersRead_assigns].
    + intros -> Heq. fold b. rewrite Heq. reflexivity.
  - intros Hput Hdel r. subst r. rewrite (check_perm_write_run self timestamp w Hex).
    fold b timestamp_file. rewrite Hput.
    assert (Hb : bucket (snd
      match delete_object (s3_client self) (requests w ++ [PutObject (name b) timestamp_file []])
              (name b) timestamp_file with
      | Ok _ => (Return tt, {| bucket := after_upload self b;
                               requests := (requests w ++ [PutObject (name b) timestamp_file []])
                                           ++ [DeleteObject (name b) timestamp_file];
                               stdout := stdout w |})
      | Failed code =>
          if access_denied_class code
          then (Return tt, {| bucket := write_denied self (after_upload self b);
                              requests := (requests w ++ [PutObject (name b) timestamp_file []])
                                          ++ [DeleteObject (name b) timestamp_file];
                              stdout := stdout w |})
          else (Raise (ClientError code),
                {| bucket := after_upload self b;
                   requests := (requests w ++ [PutObject (name b) timestamp_file []])
                               ++ [DeleteObject (name b) timestamp_file];
                   stdout := stdout w |})
      end) = after_upload self b).
    { destruct (delete_object _ _ _ _) as [[]|code] eqn:Hd; [reflexivity|].
      rewrite (Hdel code eq_refl). reflexivity. }
    rewrite Hb. unfold after_upload. split; [|split; [|split]].
    + intros ->. reflexivity.
    + intros ->. split; [reflexivity | apply set_AllUsersWrite_assigns].
    + intros -> Hne. apply not_ALLOWED_eqb in Hne. apply negb_true_iff in Hne.
      rewrite Hne. split; [reflexivity | apply set_AuthUsersWrite_assigns].
    + intros -> Heq. rewrite Heq. reflexivity.
Qed.

Lemma successful_probe_flag_rule_witness :
  let self := credentialed open_client in
  let w := initial_world (existing_bucket "b") in
  bucket (snd (check_perm_read self w))
    = set_AuthUsersRead Permission.ALLOWED (existing_bucket "b") /\
  bucket (snd (check_perm_write self "1600000000.5" w))
    = set_AuthUsersWrite Permission.ALLOWED (existing_bucket "b").
Proof.
  destruct (successful_probe_flag_rule (credentialed open_client) "1600000000.5"
              (initial_world (existing_bucket "b")) eq_refl) as [Hread Hwrite].
  destruct (Hread eq_refl) as (_ & _ & Hr & _).
  destruct (Hwrite eq_refl) as (_ & _ & Hw & _); [intros code; discriminate|].
  split; [apply Hr | apply Hw]; solve [reflexivity | simpl; discriminate].
Defined.

(** C5 as stated fails for the write probe when the cleanup delete is
    refused after a successful upload: the probe returns normally, yet
    without credentials AllUsersWrite ends DENIED, not ALLOWED; and with
    credentials and AllUsersWrite already ALLOWED, AuthUsersWrite is written
    all the same, from UNKNOWN to DENIED. *)
Lemma successful_probe_flag_rule_counterexample :
  (let self := anonymous (undeletable_client "AccessDenied") in
   let w := initial_world (existing_bucket "b") in
   let r := check_perm_write self "1600000000.5" w in
   put_object (s3_client self) (requests w) "b" "1600000000.5.txt" [] = Ok tt /\
   fst r = Return tt /\
   AllUsersWrite (bucket (snd r)) = Permission.DENIED /\
   AllUsersWrite (bucket (snd r)) <> Permission.ALLOWED) /\
  (let self := credentialed (undeletable_client "AccessDenied") in
   let b := set_AllUsersWrite Permission.ALLOWED (existing_bucket "b") in
   let r := check_perm_write self "1600000000.5" (initial_world b) in
   put_object (s3_client self) [] "b" "1600000000.5.txt" [] = Ok tt /\
   AllUsersWrite b = Permission.ALLOWED /\
   AuthUsersWrite b = Permission.UNKNOWN /\
   fst r = Return tt /\
   AuthUsersWrite (bucket (snd r)) = Permission.DENIED).
Proof.
  split; cbv zeta.
  - split; [reflexivity|]. split; [reflexivity|]. split; [reflexivity|].
    assert (H : AllUsersWrite (bucket (snd
                  (check_perm_write (anonymous (undeletable_client "AccessDenied"))
                     "1600000000.5" (initial_world (existing_bucket "b")))))
                = Permission.DENIED) by reflexivity.
    rewrite H. discriminate.
  - repeat split.
Qed.



(** C2, as amended: on an existing bucket [check_perm_write] first uploads a
    zero-byte object under the key made of the timestamp and ".txt"; when the
    upload fails no delete is sent; when it succeeds the next and last request
    deletes that same key.  A delete refused with an access-denied-class code
    is not raised (the probe returns normally); a delete failing with any
    other code is raised to the caller as that ClientError. *)
Theorem check_perm_write_cleanup (self : S3Service) (timestamp : string) (w : world) :
  exists_ (bucket w) = BucketExists.YES ->
  let b := bucket w in
  let timestamp_file := String.append timestamp ".txt" in
  let put := PutObject (name b) timestamp_file [] in
  let del := DeleteObject (name b) timestamp_file in
  let r := check_perm_write self timestamp w in
  match put_object (s3_client self) (requests w) (name b) timestamp_file [] with
  | Failed code =>
      requests (snd r) = requests w ++ [put] /\
      fst r = (if access_denied_class code then Return tt else Raise (ClientError code))
  | Ok _ =>
      requests (snd r) = requests w ++ [put; del] /\
      match delete_object (s3_client self) (requests w ++ [put]) (name b) timestamp_file with
      | Ok _ => fst r = Return tt
      | Failed code =>
          fst r = (if access_denied_class code then Return tt else Raise (ClientError code))
      end
  end.
Proof.
  intros Hex b timestamp_file put del r. subst r.
  rewrite (check_perm_write_run self timestamp w Hex). fold b timestamp_file put del.
  destruct (put_object _ _ _ _ _) as [[]|code].
  - destruct (delete_object _ _ _ _) as [[]|code]; [|destruct (access_denied_class code)];
      simpl; rewrite <- app_assoc; split; reflexivity.
  - destruct (access_denied_class code); simpl; split; reflexivity.
Qed.

Lemma check_perm_write_cleanup_witness :
  let r := check_perm_write (anonymous open_client) "1600000000.5"
             (initial_world (existing_bucket "b")) in
  requests (snd r) = [PutObject "b" "1600000000.5.txt" []; DeleteObject "b" "1600000000.5.txt"] /\
  fst r = Return tt.
Proof.
  exact (check_perm_write_cleanup (anonymous open_client) "1600000000.5"
           (initial_world (existing_bucket "b")) eq_refl).
Defined.

(** C2 as stated fails twice.  On a backend refusing the upload the probe
    sends the upload alone, and no delete follows; on a backend accepting the
    upload and failing the delete with "InternalError", that error reaches the
    caller. *)
Lemma check_perm_write_cleanup_counterexample :
  (let r := check_perm_write (anonymous closed_client) "1600000000.5"
              (initial_world (existing_bucket "b")) in
   requests (snd r) = [PutObject "b" "1600000000.5.txt" []] /\
   ~ In (DeleteObject "b" "1600000000.5.txt") (requests (snd r))) /\
  (let r := check_perm_write (anonymous (undeletable_client "InternalError")) "1600000000.5"
              (initial_world (existing_bucket "b")) in
   requests (snd r)
     = [PutObject "b" "1600000000.5.txt" []; DeleteObject "b" "1600000000.5.txt"] /\
   fst r = Raise (ClientError "InternalError")).
Proof.
  split; cbv zeta.
  - assert (H : requests (snd (check_perm_write (anonymous closed_client) "1600000000.5"
                  (initial_world (existing_bucket "b"))))
                = [PutObject "b" "1600000000.5.txt" []]) by reflexivity.
    rewrite H. split; [reflexivity|].
    intros [Hin | []]. discriminate Hin.
  - split; reflexivity.
Qed.

(** ** The ACL-write probe *)

Lemma check_perm_write_acl_sends (self : S3Service) (w : world) :
  exists_ (bucket w) = BucketExists.YES ->
  requests (snd (check_perm_write_acl self w))
    = requests w ++ [PutBucketAcl (acl_args self (bucket w))].
Proof.
  intros Hex. unfold check_perm_write_acl, bind at 1, get_bucket.
  rewrite (YES_eqb _ Hex). probe.
  destruct (put_bucket_acl _ _ _) as [[]|code]; simpl.
  - destruct (aws_creds_configured self); simpl; [|reflexivity].
    destruct (Permission.eqb _ _); reflexivity.
  - destruct (access_denied_class code); simpl; [|reflexivity].
    destruct (aws_creds_configured self); reflexivity.
Qed.

Lemma grant_lists (self : S3Service) (b : s3Bucket) :
  readURIs b = granted_uris (AuthUsersRead b) (AllUsersRead b) /\
  writeURIs b = granted_uris (AuthUsersWrite b) (AllUsersWrite b) /\
  readAcpURIs b = granted_uris (AuthUsersReadACP b) (AllUsersReadACP b) /\
  writeAcpURIs self b
    = granted_uris (AuthUsersWriteACP b) (AllUsersWriteACP b) ++ [self_grant_URI self] /\
  fullControlURIs b = granted_uris (AuthUsersFullControl b) (AllUsersFullControl b).
Proof.
  unfold readURIs, writeURIs, readAcpURIs, writeAcpURIs, fullControlURIs, granted_uris,
    self_grant_URI, Permission.eqb.
  repeat split; repeat case_bool_decide; simpl; try reflexivity.
  all: destruct (aws_creds_configured self); reflexivity.
Qed.

Lemma acl_args_parameters (self : S3Service) (b : s3Bucket) :
  let args := acl_args self b in
  args !! "Bucket" = Some (name b) /\
  args !! "GrantRead" = grant_parameter (readURIs b) /\
  args !! "GrantWrite" = grant_parameter (writeURIs b) /\
  args !! "GrantReadACP" = grant_parameter (readAcpURIs b) /\
  args !! "GrantWriteACP" = grant_parameter (writeAcpURIs self b) /\
  args !! "GrantFullControl" = grant_parameter (fullControlURIs b) /\
  dom args ⊆ ({[ "Bucket"; "GrantRead"; "GrantWrite"; "GrantReadACP"; "GrantWriteACP";
                 "GrantFullControl" ]} : gset string).
Proof.
  unfold acl_args.
  generalize (readURIs b) (writeURIs b) (readAcpURIs b) (writeAcpURIs self b)
    (fullControlURIs b) (name b).
  intros l1 l2 l3 l4 l5 n.
  destruct l1, l2, l3, l4, l5; cbn [length Nat.ltb Nat.leb grant_parameter];
    (repeat split;
     [repeat (rewrite lookup_insert_ne by discriminate);
      first [apply lookup_insert_eq | apply lookup_singleton_eq
            | apply lookup_singleton_ne; discriminate] .. |]);
    rewrite ?dom_insert_L, dom_singleton_L; apply elem_of_subseteq; intros k;
    rewrite ?elem_of_union, ?elem_of_singleton; tauto.
Qed.

(** C4: on an existing bucket [check_perm_write_acl] sends one ACL-write
    request.  Each of its five capability parameters lists exactly the
    principals whose flag for that capability is ALLOWED, the write-ACP
    parameter alone receiving in addition, at its end, the URI of the
    principal class under test; a parameter whose list is empty is left out,
    and the request carries nothing else but the bucket name. *)
Theorem check_perm_write_acl_request (self : S3Service) (w : world) :
  exists_ (bucket w) = BucketExists.YES ->
  let b := bucket w in
  exists args : gmap string string,
    requests (snd (check_perm_write_acl self w)) = requests w ++ [PutBucketAcl args] /\
    args !! "Bucket" = Some (name b) /\
    args !! "GrantRead" = grant_parameter (granted_uris (AuthUsersRead b) (AllUsersRead b)) /\
    args !! "GrantWrite" = grant_parameter (granted_uris (AuthUsersWrite b) (AllUsersWrite b)) /\
    args !! "GrantReadACP"
      = grant_parameter (granted_uris (AuthUsersReadACP b) (AllUsersReadACP b)) /\
    args !! "GrantWriteACP"
      = grant_parameter (granted_uris (AuthUsersWriteACP b) (AllUsersWriteACP b)
                         ++ [self_grant_URI self]) /\
    args !! "GrantFullControl"
      = grant_parameter (granted_uris (AuthUsersFullControl b) (AllUsersFullControl b)) /\
    dom args ⊆ ({[ "Bucket"; "GrantRead"; "GrantWrite"; "GrantReadACP"; "GrantWriteACP";
                   "GrantFullControl" ]} : gset string).
Proof.
  intros Hex b. exists (acl_args self b).
  split; [apply check_perm_write_acl_sends, Hex|].
  destruct (grant_lists self b) as (<- & <- & <- & <- & <-).
  apply acl_args_parameters.
Qed.

Lemma check_perm_write_acl_request_witness :
  let b := set_AuthUsersRead Permission.ALLOWED (existing_bucket "b") in
  exists args : gmap string string,
    requests (snd (check_perm_write_acl (credentialed open_client) (initial_world b)))
      = [PutBucketAcl args] /\
    args !! "Bucket" = Some "b" /\
    args !! "GrantRead" = Some authUsersURI /\
    args !! "GrantWrite" = None /\
    args !! "GrantReadACP" = None /\
    args !! "GrantWriteACP" = Some authUsersURI /\
    args !! "GrantFullControl" = None /\
    dom args ⊆ ({[ "Bucket"; "GrantRead"; "GrantWrite"; "GrantReadACP"; "GrantWriteACP";
                   "GrantFullControl" ]} : gset string).
Proof.
  exact (check_perm_write_acl_request (credentialed open_client)
           (initial_world (set_AuthUsersRead Permission.ALLOWED (existing_bucket "b")))
           eq_refl).
Defined.

(** ** The interpretation of a stored ACL *)

Lemma parse_grant_flag (b : s3Bucket) (grant : Grant) (p : principal) (c : capability) :
  flag p c (parse_grant b grant)
    = if grant_allows grant p c then Permission.ALLOWED else flag p c b.
Proof.
  destruct grant as [[ty uri] perm].
  unfold parse_grant, grant_allows, grantee_URI_is, granted_capabilities.
  cbn [grant_Grantee grant_Permission grantee_Type grantee_URI].
  destruct (String.eqb_spec ty "Group") as [->|_]; [|reflexivity].
  destruct uri as [u|]; [|destruct p; reflexivity].
  destruct (String.eqb_spec u "http://acs.amazonaws.com/groups/global/AuthenticatedUsers")
    as [->|Hauth].
  - destruct (String.eqb_spec perm "FULL_CONTROL") as [->|_];
      [destruct p, c; reflexivity|].
    destruct (String.eqb_spec perm "READ") as [->|_]; [destruct p, c; reflexivity|].
    destruct (String.eqb_spec perm "READ_ACP") as [->|_]; [destruct p, c; reflexivity|].
    destruct (String.eqb_spec perm "WRITE") as [->|_]; [destruct p, c; reflexivity|].
    destruct (String.eqb_spec perm "WRITE_ACP") as [->|_]; destruct p, c; reflexivity.
  - destruct (String.eqb_spec u "http://acs.amazonaws.com/groups/global/AllUsers")
      as [->|Hall].
    + destruct (String.eqb_spec perm "FULL_CONTROL") as [->|_];
        [destruct p, c; reflexivity|].
      destruct (String.eqb_spec perm "READ") as [->|_]; [destruct p, c; reflexivity|].
      destruct (String.eqb_spec perm "READ_ACP") as [->|_]; [destruct p, c; reflexivity|].
      destruct (String.eqb_spec perm "WRITE") as [->|_]; [destruct p, c; reflexivity|].
      destruct (String.eqb_spec perm "WRITE_ACP") as [->|_]; destruct p, c; reflexivity.
    + apply String.eqb_neq in Hauth, Hall.
      destruct p; cbn [group_URI]; rewrite ?Hauth, ?Hall; reflexivity.
Qed.

Lemma parse_grants_flag (grants : list Grant) (b : s3Bucket) (p : principal) (c : capability) :
  flag p c (fold_left parse_grant grants b)
    = if existsb (fun grant => grant_allows grant p c) grants
      then Permission.ALLOWED else flag p c b.
Proof.
  revert b. induction grants as [|grant grants IH]; intros b; [reflexivity|].
  cbn [fold_left existsb]. rewrite IH, parse_grant_flag.
  destruct (grant_allows grant p c), (existsb _ grants); reflexivity.
Qed.

Lemma parse_grant_identity (b : s3Bucket) (grant : Grant) : same_identity b (parse_grant b grant).
Proof.
  unfold parse_grant, same_identity.
  repeat match goal with
         | |- context [if ?t then _ else _] => destruct t
         end; repeat split.
Qed.

Lemma parse_grants_identity (grants : list Grant) (b : s3Bucket) :
  same_identity b (fold_left parse_grant grants b).
Proof.
  revert b. induction grants as [|grant grants IH]; intros b; [repeat split|].
  cbn [fold_left]. destruct (IH (parse_grant b grant)) as (H1 & H2 & H3 & H4 & H5).
  destruct (parse_grant_identity b grant) as (G1 & G2 & G3 & G4 & G5).
  repeat split; congruence.
Qed.

(** A closing test leaves alone whatever its assignment leaves alone. *)
Lemma unknown_to_denied_frame {A : Type} (f : s3Bucket -> A)
    (get : s3Bucket -> Permission.t) (set : Permission.t -> s3Bucket -> s3Bucket)
    (b : s3Bucket) :
  (forall v b0, f (set v b0) = f b0) ->
  f (unknown_to_denied get set b) = f b.
Proof. intros H. unfold unknown_to_denied. destruct (Permission.eqb _ _); auto. Qed.

Lemma unknown_to_denied_same (get : s3Bucket -> Permission.t)
    (set : Permission.t -> s3Bucket -> s3Bucket) (b : s3Bucket) :
  (forall v b0, get (set v b0) = v) ->
  get (unknown_to_denied get set b) = deny_if_unknown (get b).
Proof.
  intros H. unfold unknown_to_denied, deny_if_unknown.
  destruct (Permission.eqb _ _); auto.
Qed.

(** Walks through the ten closing tests for the attribute [f]. *)
Ltac closing_tests f :=
  unfold deny_unknown; cbv zeta;
  repeat first
    [ rewrite (unknown_to_denied_same f) by reflexivity
    | rewrite (unknown_to_denied_frame f) by reflexivity ];
  reflexivity.

Lemma deny_unknown_flag (b : s3Bucket) (p : principal) (c : capability) :
  flag p c (deny_unknown b) = deny_if_unknown (flag p c b).
Proof.
  destruct p, c; cbn [flag].
  - closing_tests AuthUsersRead.
  - closing_tests AuthUsersWrite.
  - closing_tests AuthUsersReadACP.
  - closing_tests AuthUsersWriteACP.
  - closing_tests AuthUsersFullControl.
  - closing_tests AllUsersRead.
  - closing_tests AllUsersWrite.
  - closing_tests AllUsersReadACP.
  - closing_tests AllUsersWriteACP.
  - closing_tests AllUsersFullControl.
Qed.

Lemma deny_unknown_identity (b : s3Bucket) : same_identity b (deny_unknown b).
Proof.
  unfold same_identity. repeat split.
  - closing_tests name.
  - closing_tests exists_.
  - closing_tests foundACL.
  - closing_tests objects.
  - closing_tests objects_enumerated.
Qed.

(** C3: for a stored ACL with a grant list, [parse_found_acl] maps each grant
    to a Group grantee with one of the two group URIs onto the flags of that
    principal class (FULL_CONTROL allows Read, Write, ReadACP, WriteACP and
    FullControl; READ, READ_ACP, WRITE and WRITE_ACP allow the capability
    they name), every other grant changing nothing; afterwards a flag is
    ALLOWED when some grant allows it, DENIED when none does and it was still
    UNKNOWN, and as it was otherwise, so that no flag stays UNKNOWN; only
    flags are written.  On a bucket with no AuthUsers flag ALLOWED
    beforehand, an ACL granting FULL_CONTROL to the AllUsers group alone
    leaves the five AllUsers flags ALLOWED and the five AuthUsers flags
    DENIED; on a bucket with no flag ALLOWED beforehand, an empty grant list
    leaves all ten flags DENIED. *)
Theorem parse_found_acl_flags (b : s3Bucket) (acl : ACL) (grants : list Grant) :
  foundACL b = Some acl ->
  Grants acl = Some grants ->
  let b' := parse_found_acl b in
  (forall b0 grant p c,
     flag p c (parse_grant b0 grant)
       = if grant_allows grant p c then Permission.ALLOWED else flag p c b0) /\
  (forall p c,
     flag p c b'
       = if existsb (fun grant => grant_allows grant p c) grants
         then Permission.ALLOWED
         else if Permission.eqb (flag p c b) Permission.UNKNOWN
              then Permission.DENIED else flag p c b) /\
  (forall p c, flag p c b' <> Permission.UNKNOWN) /\
  same_identity b b' /\
  (grants = [group_grant (group_URI AllUsers) "FULL_CONTROL"] ->
   (forall c, flag AuthUsers c b <> Permission.ALLOWED) ->
   forall c, flag AllUsers c b' = Permission.ALLOWED /\
             flag AuthUsers c b' = Permission.DENIED) /\
  (grants = [] ->
   (forall p c, flag p c b <> Permission.ALLOWED) ->
   forall p c, flag p c b' = Permission.DENIED).
Proof.
  intros Hacl Hgrants b'.
  assert (Hflag : forall p c,
     flag p c b'
       = if existsb (fun grant => grant_allows grant p c) grants
         then Permission.ALLOWED
         else if Permission.eqb (flag p c b) Permission.UNKNOWN
              then Permission.DENIED else flag p c b).
  { intros p c. subst b'. unfold parse_found_acl. rewrite Hacl, Hgrants.
    rewrite deny_unknown_flag, parse_grants_flag.
    destruct (existsb _ grants); reflexivity. }
  split; [intros; apply parse_grant_flag|].
  split; [exact Hflag|].
  split.
  { intros p c. rewrite Hflag. destruct (existsb _ grants); [discriminate|].
    destruct (flag p c b); simpl; discriminate. }
  split.
  { subst b'. unfold parse_found_acl. rewrite Hacl, Hgrants.
    destruct (deny_unknown_identity (fold_left parse_grant grants b))
      as (D1 & D2 & D3 & D4 & D5).
    destruct (parse_grants_identity grants b) as (H1 & H2 & H3 & H4 & H5).
    repeat split; congruence. }
  split.
  - intros -> Hnot c. rewrite !Hflag. split; [destruct c; reflexivity|].
    specialize (Hnot c).
    replace (existsb _ _) with false by (destruct c; reflexivity).
    destruct (flag AuthUsers c b); simpl; congruence.
  - intros -> Hnot p c. rewrite Hflag. specialize (Hnot p c). simpl.
    destruct (flag p c b); simpl; congruence.
Qed.

Lemma parse_found_acl_flags_witness :
  let b := set_foundACL
             (Some {| Grants := Some [group_grant (group_URI AllUsers) "FULL_CONTROL"] |})
             (existing_bucket "b") in
  map (fun c => flag AllUsers c (parse_found_acl b)) [Read; Write; ReadACP; WriteACP; FullControl]
    = repeat Permission.ALLOWED 5 /\
  map (fun c => flag AuthUsers c (parse_found_acl b)) [Read; Write; ReadACP; WriteACP; FullControl]
    = repeat Permission.DENIED 5.
Proof.
  intros b.
  destruct (parse_found_acl_flags b
              {| Grants := Some [group_grant (group_URI AllUsers) "FULL_CONTROL"] |}
              [group_grant (group_URI AllUsers) "FULL_CONTROL"] eq_refl eq_refl)
    as (_ & _ & _ & _ & Hfull & _).
  assert (Hnot : forall c, flag AuthUsers c b <> Permission.ALLOWED)
    by (intros c; destruct c; discriminate).
  specialize (Hfull eq_refl Hnot). cbn [map repeat].
  destruct (Hfull Read) as [-> ->], (Hfull Write) as [-> ->], (Hfull ReadACP) as [-> ->],
    (Hfull WriteACP) as [-> ->], (Hfull FullControl) as [-> ->].
  split; reflexivity.
Defined.

(** ** Enumeration *)

Lemma check_bucket_exists_run (self : S3Service) (w : world) :
  check_bucket_exists self w
    = (Return tt,
       {| bucket := set_exists
                      (match head_bucket (s3_client self) (requests w) (name (bucket w)) with
                       | Failed code =>
                           if String.eqb code "404" then BucketExists.NO else BucketExists.YES
                       | Ok _ => BucketExists.YES
                       end) (bucket w);
          requests := requests w ++ [HeadBucket (name (bucket w))];
          stdout := stdout w |}).
Proof.
  unfold check_bucket_exists. probe.
  destruct (head_bucket _ _ _) as [[]|code]; simpl; [reflexivity|].
  destruct (String.eqb code "404"); reflexivity.
Qed.

Lemma paging_start_bucket (self : S3Service) (w : world) :
  name (bucket (paging_start self w)) = name (bucket w) /\
  objects (bucket (paging_start self w)) = objects (bucket w).
Proof.
  unfold paging_start. destruct (BucketExists.eqb _ _); [|split; reflexivity].
  rewrite check_bucket_exists_run. split; reflexivity.
Qed.

Lemma add_items_objects (items : list Item) (b : s3Bucket) :
  add_items items b = set_objects (objects b ++ map object_of_item items) b.
Proof.
  revert b. induction items as [|item items IH]; intros b.
  - destruct b. unfold add_items, set_objects. simpl. rewrite app_nil_r. reflexivity.
  - unfold add_items in *. cbn [fold_left map]. rewrite IH.
    unfold addObject, set_objects. simpl. rewrite <- app_assoc. reflexivity.
Qed.

(** The loop passes over pages that carry items, recording them in order. *)
Lemma for_pages_full (Bucket : string) (ls : list (list Item)) (rest : list (result Page))
    (w : world) :
  for_pages Bucket (map full_page ls ++ rest) w
    = for_pages Bucket rest
        {| bucket := set_objects (objects (bucket w) ++ map object_of_item (concat ls)) (bucket w);
           requests := requests w ++ page_fetches Bucket (length ls);
           stdout := stdout w |}.
Proof.
  revert w. induction ls as [|items ls IH]; intros w.
  - destruct w as [b log out]. destruct b. unfold set_objects, page_fetches. simpl.
    rewrite !app_nil_r. reflexivity.
  - cbn [map app for_pages]. unfold full_page at 1. probe. rewrite IH. simpl.
    rewrite add_items_objects. unfold set_objects, page_fetches. simpl.
    rewrite map_app, <- !app_assoc. reflexivity.
Qed.

(** [enumerate_bucket_objects] in terms of how its paging loop ends. *)
Lemma enumerate_bucket_objects_run (self : S3Service) (w : world) :
  let w1 := paging_start self w in
  exists_ (bucket w1) <> BucketExists.NO ->
  enumerate_bucket_objects self w =
  match for_pages (name (bucket w1))
          (paginate (s3_client self) (requests w1) (name (bucket w1))) w1 with
  | (Return Returned, w2) => (Return tt, w2)
  | (Return Fallthrough, w2) =>
      (Return tt, {| bucket := set_objects_enumerated true (bucket w2);
                     requests := requests w2; stdout := stdout w2 |})
  | (Raise (ClientError code), w2) =>
      if access_denied_class code
      then (Raise (AccessDeniedException "AccessDenied while enumerating bucket objects"), w2)
      else (Return tt, {| bucket := set_objects_enumerated true (bucket w2);
                          requests := requests w2; stdout := stdout w2 |})
  | (Raise e, w2) => (Raise e, w2)
  end.
Proof.
  intros w1 Hex.
  assert (Hstart : (if BucketExists.eqb (exists_ (bucket w)) BucketExists.UNKNOWN
                    then check_bucket_exists self else ret tt) w = (Return tt, w1)).
  { subst w1. unfold paging_start. destruct (BucketExists.eqb _ _).
    - rewrite check_bucket_exists_run. reflexivity.
    - reflexivity. }
  unfold enumerate_bucket_objects, bind at 1, get_bucket. unfold bind at 1. rewrite Hstart.
  unfold bind at 1. fold w1.
  unfold BucketExists.eqb. rewrite bool_decide_eq_false_2 by exact Hex.
  unfold bind, try_except_ClientError.
  destruct (for_pages _ _ w1) as [[[]|e] w2]; try reflexivity.
  destruct e; try reflexivity.
  destruct (access_denied_class code); reflexivity.
Qed.

(** C8: when the listing reaches a page without the "Contents" field, after
    any number of pages that carried items, [enumerate_bucket_objects]
    returns at once: the bucket is marked enumerated, it holds the objects of
    the earlier pages and nothing from that page or from the pages after it,
    whatever these are, and no further page is fetched. *)
Theorem enumerate_stops_at_bare_page (self : S3Service) (w : world)
    (ls : list (list Item)) (rest : list (result Page)) :
  let w1 := paging_start self w in
  exists_ (bucket w1) <> BucketExists.NO ->
  paginate (s3_client self) (requests w1) (name (bucket w1))
    = map full_page ls ++ bare_page :: rest ->
  let r := enumerate_bucket_objects self w in
  fst r = Return tt /\
  bucket (snd r)
    = set_objects_enumerated true
        (set_objects (objects (bucket w) ++ map object_of_item (concat ls)) (bucket w1)) /\
  objects_enumerated (bucket (snd r)) = true /\
  objects (bucket (snd r)) = objects (bucket w) ++ map object_of_item (concat ls) /\
  requests (snd r) = requests w1 ++ page_fetches (name (bucket w)) (length ls + 1).
Proof.
  intros w1 Hex Hpages r. subst r.
  rewrite (enumerate_bucket_objects_run self w Hex). fold w1. rewrite Hpages, for_pages_full.
  destruct (paging_start_bucket self w) as [Hname Hobjects]. fold w1 in Hname, Hobjects.
  rewrite Hname, Hobjects.
  unfold bare_page. cbn [for_pages]. probe.
  unfold page_fetches. rewrite repeat_app, <- app_assoc. repeat split.
Qed.

Lemma enumerate_stops_at_bare_page_witness :
  let self := anonymous (listing_client [bare_page; full_page [sample_item];
                                         full_page [other_item]]) in
  let r := enumerate_bucket_objects self (initial_world (s3Bucket_init "b")) in
  fst r = Return tt /\
  objects_enumerated (bucket (snd r)) = true /\
  objects (bucket (snd r)) = [] /\
  requests (snd r) = [HeadBucket "b"; ListObjectsV2 "b" None].
Proof.
  destruct (enumerate_stops_at_bare_page
              (anonymous (listing_client [bare_page; full_page [sample_item];
                                          full_page [other_item]]))
              (initial_world (s3Bucket_init "b")) []
              [full_page [sample_item]; full_page [other_item]])
    as (Hret & _ & Hmark & Hobjects & Hlog); [discriminate | reflexivity |].
  repeat split; assumption.
Defined.

(** The part of C1 the code keeps: a page fetch refused with an
    access-denied-class code aborts the enumeration with AccessDeniedException;
    the objects of the earlier pages stay on the bucket, which is not marked
    enumerated by this call. *)
Lemma enumerate_access_denied (self : S3Service) (w : world)
    (ls : list (list Item)) (code : string) (rest : list (result Page)) :
  let w1 := paging_start self w in
  exists_ (bucket w1) <> BucketExists.NO ->
  paginate (s3_client self) (requests w1) (name (bucket w1))
    = map full_page ls ++ Failed code :: rest ->
  access_denied_class code = true ->
  let r := enumerate_bucket_objects self w in
  fst r = Raise (AccessDeniedException "AccessDenied while enumerating bucket objects") /\
  bucket (snd r)
    = set_objects (objects (bucket w) ++ map object_of_item (concat ls)) (bucket w1).
Proof.
  intros w1 Hex Hpages Hcode r. subst r.
  rewrite (enumerate_bucket_objects_run self w Hex). fold w1. rewrite Hpages, for_pages_full.
  destruct (paging_start_bucket self w) as [Hname Hobjects]. fold w1 in Hname, Hobjects.
  rewrite Hobjects. cbn [for_pages]. probe. rewrite Hcode. split; reflexivity.
Qed.

(** Where the code departs from C1: a page fetch failing with any other code
    raises nothing.  The call returns normally and marks the bucket
    enumerated, with the objects of the earlier pages only. *)
Lemma enumerate_other_error_swallowed (self : S3Service) (w : world)
    (ls : list (list Item)) (code : string) (rest : list (result Page)) :
  let w1 := paging_start self w in
  exists_ (bucket w1) <> BucketExists.NO ->
  paginate (s3_client self) (requests w1) (name (bucket w1))
    = map full_page ls ++ Failed code :: rest ->
  access_denied_class code = false ->
  let r := enumerate_bucket_objects self w in
  fst r = Return tt /\
  bucket (snd r)
    = set_objects_enumerated true
        (set_objects (objects (bucket w) ++ map object_of_item (concat ls)) (bucket w1)).
Proof.
  intros w1 Hex Hpages Hcode r. subst r.
  rewrite (enumerate_bucket_objects_run self w Hex). fold w1. rewrite Hpages, for_pages_full.
  destruct (paging_start_bucket self w) as [Hname Hobjects]. fold w1 in Hname, Hobjects.
  rewrite Hobjects. cbn [for_pages]. probe. rewrite Hcode. split; reflexivity.
Qed.

(** C1, at a failing input: the second page fetch of an existing bucket fails
    with "InternalError".  The ClientError does not reach the caller: the call
    returns normally, with the object of the first page recorded and the
    bucket marked enumerated. *)
Theorem enumerate_internal_error_not_raised :
  let self := anonymous (listing_client [full_page [sample_item]; Failed "InternalError";
                                         full_page [other_item]]) in
  let r := enumerate_bucket_objects self (initial_world (existing_bucket "b")) in
  fst r = Return tt /\
  fst r <> Raise (ClientError "InternalError") /\
  objects (bucket (snd r)) = [object_of_item sample_item] /\
  objects_enumerated (bucket (snd r)) = true /\
  requests (snd r) = [ListObjectsV2 "b" None; ListObjectsV2 "b" None].
Proof.
  cbv zeta.
  destruct (enumerate_other_error_swallowed
              (anonymous (listing_client [full_page [sample_item]; Failed "InternalError";
                                          full_page [other_item]]))
              (initial_world (existing_bucket "b")) [[sample_item]] "InternalError"
              [full_page [other_item]])
    as [Hret Hbucket]; [discriminate | reflexivity | reflexivity |].
  rewrite Hret, Hbucket. repeat split. discriminate.
Qed.

(** * Further properties of the service *)

(** ** Buckets are determined by their fields *)

Lemma bucket_ext (b b' : s3Bucket) :
  same_identity b b' -> same_flags b b' -> b' = b.
Proof.
  unfold same_identity, same_flags. intros (H1 & H2 & H3 & H4 & H5) H.
  pose proof (H AuthUsers Read). pose proof (H AuthUsers Write).
  pose proof (H AuthUsers ReadACP). pose proof (H AuthUsers WriteACP).
  pose proof (H AuthUsers FullControl). pose proof (H AllUsers Read).
  pose proof (H AllUsers Write). pose proof (H AllUsers ReadACP).
  pose proof (H AllUsers WriteACP). pose proof (H AllUsers FullControl).
  clear H. destruct b, b'. simpl in *. subst. reflexivity.
Qed.

(** ** The probes, by cases on the answer of the backend *)

Lemma check_perm_read_acl_run (self : S3Service) (w : world) :
  exists_ (bucket w) = BucketExists.YES ->
  let b := bucket w in
  let log := requests w ++ [GetBucketAcl (name b)] in
  check_perm_read_acl self w =
  match get_bucket_acl (s3_client self) (requests w) (name b) with
  | Ok acl =>
      (Return tt, {| bucket := parse_found_acl (set_foundACL (Some acl) b);
                     requests := log; stdout := stdout w |})
  | Failed code =>
      if access_denied_class code
      then (Return tt,
            {| bucket := parse_found_acl
                           (if aws_creds_configured self
                            then set_AuthUsersReadACP Permission.DENIED b
                            else set_AllUsersReadACP Permission.DENIED b);
               requests := log; stdout := stdout w |})
      else (Raise (ClientError code), {| bucket := b; requests := log; stdout := stdout w |})
  end.
Proof.
  intros Hex. cbv zeta. unfold check_perm_read_acl, bind at 1, get_bucket.
  rewrite (YES_eqb _ Hex). probe.
  destruct (get_bucket_acl _ _ _) as [acl|code]; simpl; [reflexivity|].
  destruct (access_denied_class code); simpl; [|reflexivity].
  destruct (aws_creds_configured self); reflexivity.
Qed.

Lemma check_perm_read_run (self : S3Service) (w : world) :
  exists_ (bucket w) = BucketExists.YES ->
  let b := bucket w in
  let log := requests w ++ [ListObjectsV2 (name b) (Some 0)] in
  let record (v : Permission.t) :=
    if aws_creds_configured self
    then if Permission.eqb (AllUsersRead b) Permission.ALLOWED
         then b else set_AuthUsersRead v b
    else set_AllUsersRead v b in
  check_perm_read self w =
  match list_objects_v2 (s3_client self) (requests w) (name b) 0 with
  | Ok _ => (Return tt, {| bucket := record Permission.ALLOWED;
                           requests := log; stdout := stdout w |})
  | Failed code =>
      if access_denied_class code
      then (Return tt, {| bucket := record Permission.DENIED;
                          requests := log; stdout := stdout w |})
      else (Raise (ClientError code),
            {| bucket := b; requests := log;
               stdout := stdout w
                         ++ [String.append "ERROR: Error while checking bucket " (name b)] |})
  end.
Proof.
  intros Hex. cbv zeta. unfold check_perm_read, bind at 1, get_bucket.
  rewrite (YES_eqb _ Hex). probe.
  destruct (list_objects_v2 _ _ _ _) as [[]|code]; simpl.
  - destruct (aws_creds_configured self); simpl; [|reflexivity].
    destruct (Permission.eqb _ _); reflexivity.
  - destruct (access_denied_class code); simpl; [|reflexivity].
    destruct (aws_creds_configured self); simpl; [|reflexivity].
    destruct (Permission.eqb _ _); reflexivity.
Qed.

Lemma check_perm_write_acl_run (self : S3Service) (w : world) :
  exists_ (bucket w) = BucketExists.YES ->
  let b := bucket w in
  let log := requests w ++ [PutBucketAcl (acl_args self b)] in
  check_perm_write_acl self w =
  match put_bucket_acl (s3_client self) (requests w) (acl_args self b) with
  | Ok _ =>
      (Return tt,
       {| bucket := if aws_creds_configured self
                    then if Permission.eqb (AllUsersWriteACP b) Permission.ALLOWED
                         then b else set_AuthUsersWriteACP Permission.ALLOWED b
                    else set_AllUsersWriteACP Permission.ALLOWED b;
          requests := log; stdout := stdout w |})
  | Failed code =>
      if access_denied_class code
      then (Return tt,
            {| bucket := if aws_creds_configured self
                         then set_AuthUsersWriteACP Permission.DENIED b
                         else set_AllUsersWriteACP Permission.DENIED b;
               requests := log; stdout := stdout w |})
      else (Raise (ClientError code), {| bucket := b; requests := log; stdout := stdout w |})
  end.
Proof.
  intros Hex. cbv zeta. unfold check_perm_write_acl, bind at 1, get_bucket.
  rewrite (YES_eqb _ Hex). probe.
  destruct (put_bucket_acl _ _ _) as [[]|code]; simpl.
  - destruct (aws_creds_configured self); simpl; [|reflexivity].
    destruct (Permission.eqb _ _); reflexivity.
  - destruct (access_denied_class code); simpl; [|reflexivity].
    destruct (aws_creds_configured self); reflexivity.
Qed.

(** ** More on the interpretation of a stored ACL *)

Lemma parse_found_acl_flag (b : s3Bucket) (acl : ACL) (grants : list Grant)
    (p : principal) (c : capability) :
  foundACL b = Some acl ->
  Grants acl = Some grants ->
  flag p c (parse_found_acl b)
    = if existsb (fun grant => grant_allows grant p c) grants
      then Permission.ALLOWED else deny_if_unknown (flag p c b).
Proof.
  intros Hacl Hgrants. unfold parse_found_acl. rewrite Hacl, Hgrants.
  rewrite deny_unknown_flag, parse_grants_flag.
  destruct (existsb _ grants); reflexivity.
Qed.

Lemma parse_found_acl_identity (b : s3Bucket) : same_identity b (parse_found_acl b).
Proof.
  unfold parse_found_acl.
  destruct (foundACL b) as [acl|] eqn:Hacl; [|repeat split].
  destruct (Grants acl) as [grants|]; [|repeat split].
  destruct (deny_unknown_identity (fold_left parse_grant grants b)) as (D1 & D2 & D3 & D4 & D5).
  destruct (parse_grants_identity grants b) as (H1 & H2 & H3 & H4 & H5).
  repeat split; congruence.
Qed.

(** X1: the interpretation routine never takes a permission back: a flag that
    is ALLOWED stays ALLOWED, whatever the stored ACL says or omits. *)
Theorem parse_found_acl_keeps_allowed (b : s3Bucket) (p : principal) (c : capability) :
  flag p c b = Permission.ALLOWED ->
  flag p c (parse_found_acl b) = Permission.ALLOWED.
Proof.
  intros Hflag.
  destruct (foundACL b) as [acl|] eqn:Hacl.
  - destruct (Grants acl) as [grants|] eqn:Hgrants.
    + rewrite (parse_found_acl_flag b acl grants p c Hacl Hgrants), Hflag.
      destruct (existsb _ grants); reflexivity.
    + unfold parse_found_acl. rewrite Hacl, Hgrants. exact Hflag.
  - unfold parse_found_acl. rewrite Hacl. exact Hflag.
Qed.

Lemma parse_found_acl_keeps_allowed_witness :
  flag AuthUsers Read
    (parse_found_acl (set_foundACL (Some empty_acl)
                        (set_AuthUsersRead Permission.ALLOWED (existing_bucket "b"))))
    = Permission.ALLOWED.
Proof.
  apply (parse_found_acl_keeps_allowed
           (set_foundACL (Some empty_acl)
              (set_AuthUsersRead Permission.ALLOWED (existing_bucket "b")))
           AuthUsers Read).
  reflexivity.
Defined.

Lemma parse_found_acl_stable (b : s3Bucket) :
  parse_found_acl (parse_found_acl b) = parse_found_acl b.
Proof.
  destruct (parse_found_acl_identity b) as (H1 & H2 & H3 & H4 & H5).
  destruct (foundACL b) as [acl|] eqn:Hacl.
  - destruct (Grants acl) as [grants|] eqn:Hgrants.
    + apply bucket_ext; [apply parse_found_acl_identity|].
      intros p c.
      rewrite (parse_found_acl_flag (parse_found_acl b) acl grants p c H3 Hgrants).
      rewrite (parse_found_acl_flag b acl grants p c Hacl Hgrants).
      destruct (existsb _ grants); [reflexivity|].
      destruct (flag p c b); reflexivity.
    + unfold parse_found_acl at 1. rewrite H3, Hgrants. reflexivity.
  - unfold parse_found_acl at 1. rewrite H3. reflexivity.
Qed.

(** X2: interpreting the stored ACL a second time changes nothing. *)
Theorem parse_found_acl_idempotent (b : s3Bucket) :
  parse_found_acl (parse_found_acl b) = parse_found_acl b.
Proof. apply parse_found_acl_stable. Qed.

(** X3: only the set of grants matters: two grant lists with the same
    members, in any order and with any repetitions, lead to the same ten
    flags. *)
Theorem parse_found_acl_order_irrelevant (b : s3Bucket) (grants grants' : list Grant) :
  (forall grant, In grant grants <-> In grant grants') ->
  same_flags (parse_found_acl (set_foundACL (Some {| Grants := Some grants |}) b))
             (parse_found_acl (set_foundACL (Some {| Grants := Some grants' |}) b)).
Proof.
  intros Hsame p c.
  rewrite (parse_found_acl_flag (set_foundACL (Some {| Grants := Some grants |}) b)
             {| Grants := Some grants |} grants p c eq_refl eq_refl).
  rewrite (parse_found_acl_flag (set_foundACL (Some {| Grants := Some grants' |}) b)
             {| Grants := Some grants' |} grants' p c eq_refl eq_refl).
  assert (Hex : existsb (fun grant => grant_allows grant p c) grants'
                = existsb (fun grant => grant_allows grant p c) grants).
  { apply eq_true_iff_eq. rewrite !existsb_exists.
    split; intros (g & Hin & Hg); exists g; (split; [apply Hsame, Hin | exact Hg]). }
  rewrite Hex. destruct p, c; reflexivity.
Qed.

Lemma parse_found_acl_order_irrelevant_witness :
  let read := group_grant (group_URI AllUsers) "READ" in
  let write := group_grant (group_URI AuthUsers) "WRITE" in
  let b1 := parse_found_acl (set_foundACL (Some {| Grants := Some [read; write] |})
                               (existing_bucket "b")) in
  let b2 := parse_found_acl (set_foundACL (Some {| Grants := Some [write; read; write] |})
                               (existing_bucket "b")) in
  flag AllUsers Read b2 = flag AllUsers Read b1 /\
  flag AuthUsers Write b2 = flag AuthUsers Write b1.
Proof.
  assert (H := parse_found_acl_order_irrelevant (existing_bucket "b")
           [group_grant (group_URI AllUsers) "READ"; group_grant (group_URI AuthUsers) "WRITE"]
           [group_grant (group_URI AuthUsers) "WRITE"; group_grant (group_URI AllUsers) "READ";
            group_grant (group_URI AuthUsers) "WRITE"]).
  split; apply H; intros grant; simpl; tauto.
Defined.

(** X4: a grant changes nothing unless it is a grant to a Group grantee
    bearing one of the two group URIs and one of the five permission values:
    a grant to another grantee type (the owner's CanonicalUser entry), without
    URI, to another group, or of an unknown permission leaves the bucket as it
    is. *)
Theorem parse_grant_ignored (b : s3Bucket) (grant : Grant) :
  grantee_Type (grant_Grantee grant) <> "Group" \/
  grantee_URI (grant_Grantee grant) = None \/
  (forall p, grantee_URI (grant_Grantee grant) <> Some (group_URI p)) \/
  ~ In (grant_Permission grant) ["FULL_CONTROL"; "READ"; "READ_ACP"; "WRITE"; "WRITE_ACP"] ->
  parse_grant b grant = b.
Proof.
  destruct grant as [[ty uri] perm]. unfold parse_grant, grantee_URI_is.
  cbn [grant_Grantee grant_Permission grantee_Type grantee_URI].
  intros H.
  destruct (String.eqb_spec ty "Group") as [Hty|_]; [|reflexivity].
  destruct uri as [u|]; [|reflexivity].
  destruct H as [H | [H | [H | H]]]; [contradiction | discriminate | |].
  - destruct (String.eqb_spec u "http://acs.amazonaws.com/groups/global/AuthenticatedUsers")
      as [->|_]; [elim (H AuthUsers); reflexivity|].
    destruct (String.eqb_spec u "http://acs.amazonaws.com/groups/global/AllUsers")
      as [->|_]; [elim (H AllUsers); reflexivity|].
    reflexivity.
  - assert (Hfc : String.eqb perm "FULL_CONTROL" = false)
      by (apply String.eqb_neq; intros ->; apply H; simpl; tauto).
    assert (Hr : String.eqb perm "READ" = false)
      by (apply String.eqb_neq; intros ->; apply H; simpl; tauto).
    assert (Hra : String.eqb perm "READ_ACP" = false)
      by (apply String.eqb_neq; intros ->; apply H; simpl; tauto).
    assert (Hw : String.eqb perm "WRITE" = false)
      by (apply String.eqb_neq; intros ->; apply H; simpl; tauto).
    assert (Hwa : String.eqb perm "WRITE_ACP" = false)
      by (apply String.eqb_neq; intros ->; apply H; simpl; tauto).
    rewrite Hfc, Hr, Hra, Hw, Hwa.
    destruct (String.eqb u _); [reflexivity|]. destruct (String.eqb u _); reflexivity.
Qed.

Lemma parse_grant_ignored_witness :
  let owner := {| grant_Grantee := {| grantee_Type := "CanonicalUser"; grantee_URI := None |};
                  grant_Permission := "FULL_CONTROL" |} in
  parse_grant (existing_bucket "b") owner = existing_bucket "b".
Proof.
  apply (parse_grant_ignored (existing_bucket "b")
           {| grant_Grantee := {| grantee_Type := "CanonicalUser"; grantee_URI := None |};
              grant_Permission := "FULL_CONTROL" |}).
  left. simpl. discriminate.
Defined.

Lemma grant_allows_full_control (grant : Grant) (p : principal) (c : capability) :
  grant_allows grant p FullControl = true -> grant_allows grant p c = true.
Proof.
  unfold grant_allows, granted_capabilities.
  destruct (String.eqb _ "Group"); [|discriminate].
  destruct (grantee_URI_is grant (group_URI p)); [|discriminate]. simpl.
  destruct (String.eqb_spec (grant_Permission grant) "FULL_CONTROL") as [_|_].
  - intros _. destruct c; reflexivity.
  - repeat match goal with
           | |- context [if ?t then _ else _] => destruct t
           end; discriminate.
Qed.

(** X5: FullControl comes only with everything else: when the interpretation
    routine turns the FullControl flag of a principal class to ALLOWED, the
    four other flags of that class are ALLOWED as well. *)
Theorem parse_found_acl_full_control (b : s3Bucket) (p : principal) (c : capability) :
  flag p FullControl b <> Permission.ALLOWED ->
  flag p FullControl (parse_found_acl b) = Permission.ALLOWED ->
  flag p c (parse_found_acl b) = Permission.ALLOWED.
Proof.
  intros Hbefore Hafter.
  destruct (foundACL b) as [acl|] eqn:Hacl;
    [destruct (Grants acl) as [grants|] eqn:Hgrants|].
  - rewrite (parse_found_acl_flag b acl grants p FullControl Hacl Hgrants) in Hafter.
    rewrite (parse_found_acl_flag b acl grants p c Hacl Hgrants).
    destruct (existsb (fun grant => grant_allows grant p FullControl) grants) eqn:Hex.
    + apply existsb_exists in Hex. destruct Hex as (g & Hin & Hg).
      assert (Hc : existsb (fun grant => grant_allows grant p c) grants = true).
      { apply existsb_exists. exists g. split; [exact Hin|].
        apply grant_allows_full_control, Hg. }
      rewrite Hc. reflexivity.
    + destruct (flag p FullControl b); cbv in Hafter; congruence.
  - unfold parse_found_acl in Hafter. rewrite Hacl, Hgrants in Hafter. contradiction.
  - unfold parse_found_acl in Hafter. rewrite Hacl in Hafter. contradiction.
Qed.

Lemma parse_found_acl_full_control_witness :
  let b := set_foundACL
             (Some {| Grants := Some [group_grant (group_URI AuthUsers) "FULL_CONTROL"] |})
             (existing_bucket "b") in
  flag AuthUsers Write (parse_found_acl b) = Permission.ALLOWED.
Proof.
  apply (parse_found_acl_full_control
           (set_foundACL
              (Some {| Grants := Some [group_grant (group_URI AuthUsers) "FULL_CONTROL"] |})
              (existing_bucket "b")) AuthUsers Write).
  - simpl. discriminate.
  - reflexivity.
Defined.

(** ** Outcomes of the permission probes *)

(** X6: every successful ACL read on an existing bucket returns normally
    after one request and stores the answered ACL.  When the ACL carries a
    grant list all ten flags are settled: a flag is ALLOWED when some grant
    allows it, DENIED when none does and it was UNKNOWN, as it was otherwise,
    and none is left UNKNOWN.  When the ACL carries no grant list the flags
    are left as they were. *)
Theorem check_perm_read_acl_success (self : S3Service) (w : world) (acl : ACL) :
  exists_ (bucket w) = BucketExists.YES ->
  get_bucket_acl (s3_client self) (requests w) (name (bucket w)) = Ok acl ->
  let r := check_perm_read_acl self w in
  fst r = Return tt /\
  requests (snd r) = requests w ++ [GetBucketAcl (name (bucket w))] /\
  foundACL (bucket (snd r)) = Some acl /\
  (forall grants, Grants acl = Some grants ->
     (forall p c,
        flag p c (bucket (snd r))
          = if existsb (fun grant => grant_allows grant p c) grants
            then Permission.ALLOWED else deny_if_unknown (flag p c (bucket w))) /\
     (forall p c, flag p c (bucket (snd r)) <> Permission.UNKNOWN)) /\
  (Grants acl = None -> same_flags (bucket w) (bucket (snd r))).
Proof.
  intros Hex Hacl r. subst r.
  rewrite (check_perm_read_acl_run self w Hex), Hacl. cbn [fst snd bucket requests].
  split; [reflexivity|]. split; [reflexivity|]. split; [|split].
  - destruct (parse_found_acl_identity (set_foundACL (Some acl) (bucket w)))
      as (_ & _ & H3 & _). exact H3.
  - intros grants Hgrants.
    assert (Hflag : forall p c,
      flag p c (parse_found_acl (set_foundACL (Some acl) (bucket w)))
        = if existsb (fun grant => grant_allows grant p c) grants
          then Permission.ALLOWED else deny_if_unknown (flag p c (bucket w))).
    { intros p c.
      rewrite (parse_found_acl_flag (set_foundACL (Some acl) (bucket w)) acl grants p c
                 eq_refl Hgrants).
      destruct p, c; reflexivity. }
    split; [exact Hflag|].
    intros p c. rewrite Hflag. destruct (existsb _ grants); [discriminate|].
    destruct (flag p c (bucket w)); cbv; discriminate.
  - intros Hnone p c. unfold parse_found_acl.
    cbn [foundACL set_foundACL]. rewrite Hnone. destruct p, c; reflexivity.
Qed.

Lemma check_perm_read_acl_success_witness :
  let r := check_perm_read_acl (anonymous revoking_client)
             (initial_world (existing_bucket "b")) in
  fst r = Return tt /\
  foundACL (bucket (snd r)) = Some public_acl /\
  flag AllUsers Read (bucket (snd r)) = Permission.ALLOWED /\
  flag AuthUsers Read (bucket (snd r)) = Permission.DENIED.
Proof.
  destruct (check_perm_read_acl_success (anonymous revoking_client)
              (initial_world (existing_bucket "b")) public_acl eq_refl eq_refl)
    as (Hret & _ & Hacl & Hgrants & _).
  destruct (Hgrants _ eq_refl) as [Hflag _].
  split; [exact Hret|]. split; [exact Hacl|]. split; rewrite Hflag; reflexivity.
Defined.

(** X7: a failure outside the access-denied class on the first request of a
    permission probe reaches the caller as the same ClientError and leaves
    the bucket as it was; the ACL-read probe then skips the interpretation
    routine, and only the read probe prints a notice. *)
Theorem probe_unexpected_failure (self : S3Service) (timestamp : string) (w : world)
    (code : string) :
  exists_ (bucket w) = BucketExists.YES ->
  access_denied_class code = false ->
  let b := bucket w in
  let failed (r : request) (out : list string) : outcome unit * world :=
    (Raise (ClientError code),
     {| bucket := b; requests := requests w ++ [r]; stdout := stdout w ++ out |}) in
  (get_bucket_acl (s3_client self) (requests w) (name b) = Failed code ->
   check_perm_read_acl self w = failed (GetBucketAcl (name b)) []) /\
  (list_objects_v2 (s3_client self) (requests w) (name b) 0 = Failed code ->
   check_perm_read self w
     = failed (ListObjectsV2 (name b) (Some 0))
         [String.append "ERROR: Error while checking bucket " (name b)]) /\
  (put_object (s3_client self) (requests w) (name b) (String.append timestamp ".txt") []
     = Failed code ->
   check_perm_write self timestamp w
     = failed (PutObject (name b) (String.append timestamp ".txt") []) []) /\
  (put_bucket_acl (s3_client self) (requests w) (acl_args self b) = Failed code ->
   check_perm_write_acl self w = failed (PutBucketAcl (acl_args self b)) []).
Proof.
  intros Hex Hcode b failed. subst failed. cbv beta. repeat split; intros Hfail.
  - rewrite (check_perm_read_acl_run self w Hex). fold b. rewrite Hfail, Hcode.
    rewrite app_nil_r. reflexivity.
  - rewrite (check_perm_read_run self w Hex). fold b. rewrite Hfail, Hcode. reflexivity.
  - rewrite (check_perm_write_run self timestamp w Hex). fold b. rewrite Hfail, Hcode.
    rewrite app_nil_r. reflexivity.
  - rewrite (check_perm_write_acl_run self w Hex). fold b. rewrite Hfail, Hcode.
    rewrite app_nil_r. reflexivity.
Qed.

Lemma probe_unexpected_failure_witness :
  let self := anonymous (sample_client (Ok tt) (fun _ => Failed "SlowDown") (Failed "SlowDown")
                           (Failed "SlowDown") (fun _ => Ok tt) (Failed "SlowDown") []) in
  let w := initial_world (existing_bucket "b") in
  check_perm_read self w
    = (Raise (ClientError "SlowDown"),
       {| bucket := existing_bucket "b"; requests := [ListObjectsV2 "b" (Some 0)];
          stdout := ["ERROR: Error while checking bucket b"] |}).
Proof.
  destruct (probe_unexpected_failure
              (anonymous (sample_client (Ok tt) (fun _ => Failed "SlowDown") (Failed "SlowDown")
                            (Failed "SlowDown") (fun _ => Ok tt) (Failed "SlowDown") []))
              "1600000000.5" (initial_world (existing_bucket "b")) "SlowDown"
              eq_refl eq_refl) as (_ & Hread & _).
  exact (Hread eq_refl).
Defined.

(** X8: what a refused first request records.  The read probe follows the
    rule of its success case: without credentials AllUsersRead becomes
    DENIED; with credentials AuthUsersRead becomes DENIED unless AllUsersRead
    is ALLOWED, in which case nothing is written.  The write and ACL-write
    probes do not look at the AllUsers flag: the flag of the mode becomes
    DENIED in every case, and the write probe sends no delete. *)
Theorem refused_probe_flags (self : S3Service) (timestamp : string) (w : world)
    (code : string) :
  exists_ (bucket w) = BucketExists.YES ->
  access_denied_class code = true ->
  let b := bucket w in
  let put := PutObject (name b) (String.append timestamp ".txt") [] in
  (list_objects_v2 (s3_client self) (requests w) (name b) 0 = Failed code ->
   let r := check_perm_read self w in
   fst r = Return tt /\ stdout (snd r) = stdout w /\
   (aws_creds_configured self = false ->
    bucket (snd r) = set_AllUsersRead Permission.DENIED b) /\
   (aws_creds_configured self = true -> AllUsersRead b <> Permission.ALLOWED ->
    bucket (snd r) = set_AuthUsersRead Permission.DENIED b) /\
   (aws_creds_configured self = true -> AllUsersRead b = Permission.ALLOWED ->
    bucket (snd r) = b)) /\
  (put_object (s3_client self) (requests w) (name b) (String.append timestamp ".txt") []
     = Failed code ->
   let r := check_perm_write self timestamp w in
   fst r = Return tt /\ requests (snd r) = requests w ++ [put] /\
   bucket (snd r) = set_flag (mode_principal self) Write Permission.DENIED b) /\
  (put_bucket_acl (s3_client self) (requests w) (acl_args self b) = Failed code ->
   let r := check_perm_write_acl self w in
   fst r = Return tt /\
   bucket (snd r) = set_flag (mode_principal self) WriteACP Permission.DENIED b).
Proof.
  intros Hex Hcode b put. split; [|split].
  - intros Hfail r. subst r.
    rewrite (check_perm_read_run self w Hex). fold b. rewrite Hfail, Hcode.
    cbn [fst snd bucket stdout]. repeat split.
    + intros ->. reflexivity.
    + intros -> Hne. apply not_ALLOWED_eqb, negb_true_iff in Hne. rewrite Hne.
      reflexivity.
    + intros -> Heq. rewrite Heq. reflexivity.
  - intros Hfail r. subst r.
    rewrite (check_perm_write_run self timestamp w Hex). fold b. rewrite Hfail, Hcode.
    cbn [fst snd bucket requests]. repeat split.
    unfold write_denied, mode_principal. destruct (aws_creds_configured self); reflexivity.
  - intros Hfail r. subst r.
    rewrite (check_perm_write_acl_run self w Hex). fold b. rewrite Hfail, Hcode.
    cbn [fst snd bucket]. split; [reflexivity|].
    unfold mode_principal. destruct (aws_creds_configured self); reflexivity.
Qed.

Lemma refused_probe_flags_witness :
  let b := set_AllUsersWrite Permission.ALLOWED (existing_bucket "b") in
  let r := check_perm_write (credentialed closed_client) "1600000000.5" (initial_world b) in
  fst r = Return tt /\
  requests (snd r) = [PutObject "b" "1600000000.5.txt" []] /\
  bucket (snd r) = set_AuthUsersWrite Permission.DENIED b.
Proof.
  destruct (refused_probe_flags (credentialed closed_client) "1600000000.5"
              (initial_world (set_AllUsersWrite Permission.ALLOWED (existing_bucket "b")))
              "AccessDenied" eq_refl eq_refl) as (_ & Hwrite & _).
  exact (Hwrite eq_refl).
Defined.

(** X9: when the ACL write succeeds, a service without credentials sets
    AllUsersWriteACP to ALLOWED; a service with credentials sets
    AuthUsersWriteACP to ALLOWED unless AllUsersWriteACP is ALLOWED already,
    in which case the bucket is left as it was. *)
Theorem check_perm_write_acl_success (self : S3Service) (w : world) :
  exists_ (bucket w) = BucketExists.YES ->
  let b := bucket w in
  put_bucket_acl (s3_client self) (requests w) (acl_args self b) = Ok tt ->
  let r := check_perm_write_acl self w in
  fst r = Return tt /\
  (aws_creds_configured self = false ->
   bucket (snd r) = set_AllUsersWriteACP Permission.ALLOWED b) /\
  (aws_creds_configured self = true -> AllUsersWriteACP b <> Permission.ALLOWED ->
   bucket (snd r) = set_AuthUsersWriteACP Permission.ALLOWED b) /\
  (aws_creds_configured self = true -> AllUsersWriteACP b = Permission.ALLOWED ->
   bucket (snd r) = b).
Proof.
  intros Hex b Hput r. subst r.
  rewrite (check_perm_write_acl_run self w Hex). fold b. rewrite Hput.
  cbn [fst snd bucket]. repeat split.
  - intros ->. reflexivity.
  - intros -> Hne. apply not_ALLOWED_eqb, negb_true_iff in Hne. rewrite Hne.
    reflexivity.
  - intros -> Heq. rewrite Heq. reflexivity.
Qed.

Lemma check_perm_write_acl_success_witness :
  let b := set_AllUsersWriteACP Permission.ALLOWED (existing_bucket "b") in
  let r := check_perm_write_acl (credentialed open_client) (initial_world b) in
  fst r = Return tt /\ bucket (snd r) = b.
Proof.
  destruct (check_perm_write_acl_success (credentialed open_client)
              (initial_world (set_AllUsersWriteACP Permission.ALLOWED (existing_bucket "b")))
              eq_refl eq_refl) as (Hret & _ & _ & Hsame).
  split; [exact Hret | apply Hsame; reflexivity].
Defined.

(** ** What the permission probes never touch *)

(** X10: on any bucket, with any backend and on any outcome, the read, write
    and ACL-write probes leave the bucket as it was or assign one flag only:
    the one of their capability for the principal class of the mode.  A
    service without credentials thus never writes an AuthUsers flag through
    them, nor a service with credentials an AllUsers flag. *)
Theorem flag_probes_write_one_flag (self : S3Service) (timestamp : string) (w : world) :
  writes_at_most (mode_principal self) Read (bucket w)
    (bucket (snd (check_perm_read self w))) /\
  writes_at_most (mode_principal self) Write (bucket w)
    (bucket (snd (check_perm_write self timestamp w))) /\
  writes_at_most (mode_principal self) WriteACP (bucket w)
    (bucket (snd (check_perm_write_acl self w))).
Proof.
  unfold writes_at_most, mode_principal.
  destruct (decide (exists_ (bucket w) = BucketExists.YES)) as [Hex|Hex].
  - split; [|split].
    + rewrite (check_perm_read_run self w Hex).
      destruct (list_objects_v2 _ _ _ _) as [[]|code];
        [|destruct (access_denied_class code)]; cbn [snd bucket];
        destruct (aws_creds_configured self); try (left; reflexivity);
        try destruct (Permission.eqb _ _); try (left; reflexivity);
        right; eexists; reflexivity.
    + rewrite (check_perm_write_run self timestamp w Hex).
      unfold after_upload, write_denied.
      destruct (put_object _ _ _ _ _) as [[]|code];
        [destruct (delete_object _ _ _ _) as [[]|code]|];
        try destruct (access_denied_class code); cbn [snd bucket];
        destruct (aws_creds_configured self); try (left; reflexivity);
        try destruct (Permission.eqb _ _); try (left; reflexivity);
        right; eexists; reflexivity.
    + rewrite (check_perm_write_acl_run self w Hex).
      destruct (put_bucket_acl _ _ _) as [[]|code];
        [|destruct (access_denied_class code)]; cbn [snd bucket];
        destruct (aws_creds_configured self); try (left; reflexivity);
        try destruct (Permission.eqb _ _); try (left; reflexivity);
        right; eexists; reflexivity.
  - apply not_YES_eqb in Hex.
    unfold check_perm_read, check_perm_write, check_perm_write_acl, bind, get_bucket.
    rewrite Hex. repeat split; left; reflexivity.
Qed.

(** X11: on any bucket, with any backend and on any outcome, the ACL-read
    probe changes neither the name of the bucket, nor its existence status,
    nor its objects, nor its enumeration mark. *)
Theorem check_perm_read_acl_frame (self : S3Service) (w : world) :
  let b' := bucket (snd (check_perm_read_acl self w)) in
  name b' = name (bucket w) /\
  exists_ b' = exists_ (bucket w) /\
  objects b' = objects (bucket w) /\
  objects_enumerated b' = objects_enumerated (bucket w).
Proof.
  cbv zeta.
  destruct (decide (exists_ (bucket w) = BucketExists.YES)) as [Hex|Hex].
  - rewrite (check_perm_read_acl_run self w Hex).
    destruct (get_bucket_acl _ _ _) as [acl|code]; cbn [snd bucket].
    + destruct (parse_found_acl_identity (set_foundACL (Some acl) (bucket w)))
        as (H1 & H2 & _ & H4 & H5). repeat split; assumption.
    + destruct (access_denied_class code); cbn [snd bucket]; [|repeat split].
      destruct (aws_creds_configured self).
      * destruct (parse_found_acl_identity
                    (set_AuthUsersReadACP Permission.DENIED (bucket w)))
          as (H1 & H2 & _ & H4 & H5). repeat split; assumption.
      * destruct (parse_found_acl_identity
                    (set_AllUsersReadACP Permission.DENIED (bucket w)))
          as (H1 & H2 & _ & H4 & H5). repeat split; assumption.
  - apply not_YES_eqb in Hex. unfold check_perm_read_acl, bind, get_bucket.
    rewrite Hex. repeat split.
Qed.

(** X12: the write-ACP grant list is never empty, since it always ends with
    the self-grant; that URI occurs in it exactly once, or exactly twice when
    the WriteACP flag of the mode's own principal class is already ALLOWED. *)
Theorem write_acp_self_grant (self : S3Service) (b : s3Bucket) :
  last (writeAcpURIs self b) = Some (self_grant_URI self) /\
  count_occ String.string_dec (writeAcpURIs self b) (self_grant_URI self)
    = (if Permission.eqb (flag (mode_principal self) WriteACP b) Permission.ALLOWED
       then 2 else 1).
Proof.
  unfold writeAcpURIs, self_grant_URI, mode_principal.
  destruct (aws_creds_configured self); cbn [flag];
    destruct (Permission.eqb (AuthUsersWriteACP b) Permission.ALLOWED),
             (Permission.eqb (AllUsersWriteACP b) Permission.ALLOWED);
    split; reflexivity.
Qed.

(** ** More on enumeration *)

(** X13: enumerating a bucket known not to exist raises the Exception
    "Bucket doesn't exist" at once, nothing sent and nothing changed; on a
    bucket of UNKNOWN existence the existence probe runs first, and a "404"
    leads to the same Exception with the status NO recorded and no page
    fetched. *)
Theorem enumerate_missing_bucket (self : S3Service) (w : world) :
  (exists_ (bucket w) = BucketExists.NO ->
   enumerate_bucket_objects self w = (Raise (Exception "Bucket doesn't exist"), w)) /\
  (exists_ (bucket w) = BucketExists.UNKNOWN ->
   head_bucket (s3_client self) (requests w) (name (bucket w)) = Failed "404" ->
   enumerate_bucket_objects self w
     = (Raise (Exception "Bucket doesn't exist"),
        {| bucket := set_exists BucketExists.NO (bucket w);
           requests := requests w ++ [HeadBucket (name (bucket w))];
           stdout := stdout w |})).
Proof.
  split.
  - intros Hno. unfold enumerate_bucket_objects, bind at 1, get_bucket.
    rewrite Hno. probe. rewrite Hno. reflexivity.
  - intros Hunknown Hhead. unfold enumerate_bucket_objects, bind at 1, get_bucket.
    rewrite Hunknown. cbn [BucketExists.eqb]. unfold bind at 1.
    replace (BucketExists.eqb BucketExists.UNKNOWN BucketExists.UNKNOWN) with true
      by reflexivity.
    rewrite check_bucket_exists_run, Hhead. reflexivity.
Qed.

Lemma enumerate_missing_bucket_witness :
  enumerate_bucket_objects
    (anonymous (sample_client (Failed "404") (fun _ => Ok empty_acl) (Ok tt) (Ok tt)
                  (fun _ => Ok tt) (Ok tt) [full_page [sample_item]]))
    (initial_world (s3Bucket_init "gone"))
  = (Raise (Exception "Bucket doesn't exist"),
     {| bucket := set_exists BucketExists.NO (s3Bucket_init "gone");
        requests := [HeadBucket "gone"]; stdout := [] |}).
Proof.
  destruct (enumerate_missing_bucket
              (anonymous (sample_client (Failed "404") (fun _ => Ok empty_acl) (Ok tt) (Ok tt)
                            (fun _ => Ok tt) (Ok tt) [full_page [sample_item]]))
              (initial_world (s3Bucket_init "gone"))) as [_ Hunknown].
  exact (Hunknown eq_refl eq_refl).
Defined.

(** X14: when every page of the listing carries items (or there is no page at
    all), the enumeration returns normally with the items of all pages
    appended as objects in the order received, one object per item, the
    bucket marked enumerated, and one fetch per page. *)
Theorem enumerate_complete_listing (self : S3Service) (w : world) (ls : list (list Item)) :
  let w1 := paging_start self w in
  exists_ (bucket w1) <> BucketExists.NO ->
  paginate (s3_client self) (requests w1) (name (bucket w1)) = map full_page ls ->
  let r := enumerate_bucket_objects self w in
  fst r = Return tt /\
  bucket (snd r)
    = set_objects_enumerated true
        (set_objects (objects (bucket w) ++ map object_of_item (concat ls)) (bucket w1)) /\
  length (objects (bucket (snd r))) = length (objects (bucket w)) + length (concat ls) /\
  requests (snd r) = requests w1 ++ page_fetches (name (bucket w)) (length ls).
Proof.
  intros w1 Hex Hpages r. subst r.
  rewrite (enumerate_bucket_objects_run self w Hex). fold w1.
  rewrite Hpages, <- (app_nil_r (map full_page ls)), for_pages_full.
  destruct (paging_start_bucket self w) as [Hname Hobjects]. fold w1 in Hname, Hobjects.
  rewrite Hname, Hobjects. cbn [for_pages]. unfold ret. cbn [fst snd bucket requests].
  repeat split. cbn [objects set_objects set_objects_enumerated].
  rewrite length_app, length_map. reflexivity.
Qed.

Lemma enumerate_complete_listing_witness :
  let r := enumerate_bucket_objects
             (anonymous (listing_client [full_page [sample_item]; full_page [other_item]]))
             (initial_world (existing_bucket "b")) in
  fst r = Return tt /\
  objects (bucket (snd r)) = [object_of_item sample_item; object_of_item other_item] /\
  objects_enumerated (bucket (snd r)) = true /\
  requests (snd r) = [ListObjectsV2 "b" None; ListObjectsV2 "b" None].
Proof.
  destruct (enumerate_complete_listing
              (anonymous (listing_client [full_page [sample_item]; full_page [other_item]]))
              (initial_world (existing_bucket "b")) [[sample_item]; [other_item]])
    as (Hret & Hbucket & _ & Hlog); [discriminate | reflexivity |].
  cbv zeta in *. rewrite Hret, Hbucket, Hlog. repeat split.
Defined.

Ltac grew_split := unfold listing_grew; split; [|split; [|split; [|split]]].

Lemma listing_grew_refl (b : s3Bucket) : listing_grew b b.
Proof.
  grew_split;
    [reflexivity | reflexivity | intros p c; reflexivity
    | exists []; rewrite app_nil_r; reflexivity | auto].
Qed.

Lemma listing_grew_trans (b1 b2 b3 : s3Bucket) :
  listing_grew b1 b2 -> listing_grew b2 b3 -> listing_grew b1 b3.
Proof.
  intros (N1 & A1 & F1 & (l1 & O1) & E1) (N2 & A2 & F2 & (l2 & O2) & E2).
  grew_split;
    [congruence | congruence | intros p c; rewrite F2; apply F1
    | exists (l1 ++ l2); rewrite O2, O1, app_assoc; reflexivity | auto].
Qed.

Lemma listing_grew_add_items (items : list Item) (b : s3Bucket) :
  listing_grew b (add_items items b).
Proof.
  rewrite add_items_objects.
  grew_split;
    [reflexivity | reflexivity | intros p c; destruct p, c; reflexivity
    | exists (map object_of_item items); reflexivity | auto].
Qed.

Lemma listing_grew_mark (b : s3Bucket) : listing_grew b (set_objects_enumerated true b).
Proof.
  grew_split;
    [reflexivity | reflexivity | intros p c; destruct p, c; reflexivity
    | exists []; simpl; rewrite app_nil_r; reflexivity | auto].
Qed.

Lemma listing_grew_set_exists (e : BucketExists.t) (b : s3Bucket) :
  listing_grew b (set_exists e b).
Proof.
  grew_split;
    [reflexivity | reflexivity | intros p c; destruct p, c; reflexivity
    | exists []; simpl; rewrite app_nil_r; reflexivity | auto].
Qed.

(** The paging loop, whatever the pages: it only appends objects and raises
    the mark, and the one exception it can raise is the ClientError of a
    failed fetch. *)
Lemma for_pages_grows (Bucket : string) (pages : list (result Page)) (w : world) :
  listing_grew (bucket w) (bucket (snd (for_pages Bucket pages w))) /\
  match fst (for_pages Bucket pages w) with
  | Return _ | Raise (ClientError _) => True
  | Raise _ => False
  end.
Proof.
  revert w. induction pages as [|fetch pages IH]; intros w.
  - split; [apply listing_grew_refl | exact I].
  - cbn [for_pages]. destruct fetch as [[contents]|code]; probe.
    + destruct contents as [items|]; simpl.
      * match goal with
        | |- context [for_pages Bucket pages ?w'] =>
            destruct (IH w') as [Hgrew Hout]; destruct (for_pages Bucket pages w') as [[f|e] w2]
        end; simpl in *;
          (split; [eapply listing_grew_trans; [apply (listing_grew_add_items items)|exact Hgrew]
                  | exact Hout]).
      * split; [apply listing_grew_mark | exact I].
    + split; [apply listing_grew_refl | exact I].
Qed.

Lemma paging_start_grew (self : S3Service) (w : world) :
  listing_grew (bucket w) (bucket (paging_start self w)).
Proof.
  unfold paging_start. destruct (BucketExists.eqb _ _); [|apply listing_grew_refl].
  rewrite check_bucket_exists_run. apply listing_grew_set_exists.
Qed.

Lemma enumerate_missing_run (self : S3Service) (w : world) :
  exists_ (bucket (paging_start self w)) = BucketExists.NO ->
  enumerate_bucket_objects self w
    = (Raise (Exception "Bucket doesn't exist"), paging_start self w).
Proof.
  intros Hno.
  assert (Hstart : (if BucketExists.eqb (exists_ (bucket w)) BucketExists.UNKNOWN
                    then check_bucket_exists self else ret tt) w
                   = (Return tt, paging_start self w)).
  { unfold paging_start. destruct (BucketExists.eqb _ _).
    - rewrite check_bucket_exists_run. reflexivity.
    - reflexivity. }
  unfold enumerate_bucket_objects, bind at 1, get_bucket. unfold bind at 1. rewrite Hstart.
  unfold bind at 1. rewrite Hno. reflexivity.
Qed.

(** X15: on any bucket, with any backend and on any outcome, an enumeration
    keeps the name, the stored ACL and the ten flags of the bucket, keeps the
    objects already recorded as a prefix of the objects it leaves, and never
    lowers the enumeration mark. *)
Theorem enumerate_only_grows_listing (self : S3Service) (w : world) :
  listing_grew (bucket w) (bucket (snd (enumerate_bucket_objects self w))).
Proof.
  eapply listing_grew_trans; [apply (paging_start_grew self w)|].
  destruct (decide (exists_ (bucket (paging_start self w)) = BucketExists.NO)) as [Hno|Hex].
  - rewrite (enumerate_missing_run self w Hno). apply listing_grew_refl.
  - rewrite (enumerate_bucket_objects_run self w Hex).
    match goal with
    | |- context [for_pages ?n ?ps ?w1] =>
        destruct (for_pages_grows n ps w1) as [Hgrew _];
        destruct (for_pages n ps w1) as [[[]|e] w2]
    end; cbn [snd bucket] in *.
    + eapply listing_grew_trans; [exact Hgrew | apply listing_grew_mark].
    + exact Hgrew.
    + destruct e; cbn [snd bucket]; try exact Hgrew.
      destruct (access_denied_class code); cbn [snd bucket]; [exact Hgrew|].
      eapply listing_grew_trans; [exact Hgrew | apply listing_grew_mark].
Qed.

(** X16: no ClientError ever reaches the caller of an enumeration: the one
    of the existence probe is absorbed into the status it records, and the
    one of a page fetch is replaced by AccessDeniedException or dropped. *)
Theorem enumerate_never_raises_ClientError (self : S3Service) (w : world) (code : string) :
  fst (enumerate_bucket_objects self w) <> Raise (ClientError code).
Proof.
  destruct (decide (exists_ (bucket (paging_start self w)) = BucketExists.NO)) as [Hno|Hex].
  - rewrite (enumerate_missing_run self w Hno). discriminate.
  - rewrite (enumerate_bucket_objects_run self w Hex).
    match goal with
    | |- context [for_pages ?n ?ps ?w1] =>
        destruct (for_pages_grows n ps w1) as [_ Hout];
        destruct (for_pages n ps w1) as [[[]|e] w2]
    end; cbn [fst] in *; try discriminate.
    destruct e; try contradiction.
    destruct (access_denied_class code0); discriminate.
Qed.

Lemma enumerate_full_run (self : S3Service) (w : world) (ls : list (list Item)) :
  exists_ (bucket w) = BucketExists.YES ->
  paginate (s3_client self) (requests w) (name (bucket w)) = map full_page ls ->
  enumerate_bucket_objects self w
    = (Return tt,
       {| bucket := set_objects_enumerated true
                      (set_objects (objects (bucket w) ++ map object_of_item (concat ls))
                         (bucket w));
          requests := requests w ++ page_fetches (name (bucket w)) (length ls);
          stdout := stdout w |}).
Proof.
  intros Hex Hpages.
  assert (Hstart : paging_start self w = w)
    by (unfold paging_start; rewrite Hex; reflexivity).
  assert (Hno : exists_ (bucket (paging_start self w)) <> BucketExists.NO)
    by (rewrite Hstart, Hex; discriminate).
  rewrite (enumerate_bucket_objects_run self w Hno), Hstart, Hpages.
  rewrite <- (app_nil_r (map full_page ls)), for_pages_full. reflexivity.
Qed.

(** X17: nothing is de-duplicated: enumerating an existing bucket twice
    against a backend that lists the same pages both times records every
    object twice, the second copy after the first. *)
Theorem enumerate_twice_records_twice (self : S3Service) (w : world)
    (ls : list (list Item)) :
  exists_ (bucket w) = BucketExists.YES ->
  (forall log, paginate (s3_client self) log (name (bucket w)) = map full_page ls) ->
  let r := bind (enumerate_bucket_objects self) (fun _ => enumerate_bucket_objects self) w in
  fst r = Return tt /\
  objects (bucket (snd r))
    = objects (bucket w) ++ map object_of_item (concat ls) ++ map object_of_item (concat ls).
Proof.
  intros Hex Hpages r. subst r. unfold bind.
  rewrite (enumerate_full_run self w ls Hex (Hpages _)).
  rewrite (enumerate_full_run self _ ls); [| exact Hex | apply Hpages].
  cbn [fst snd bucket objects set_objects set_objects_enumerated].
  rewrite <- app_assoc. split; reflexivity.
Qed.

Lemma enumerate_twice_records_twice_witness :
  let self := anonymous (listing_client [full_page [sample_item]]) in
  let r := bind (enumerate_bucket_objects self) (fun _ => enumerate_bucket_objects self)
             (initial_world (existing_bucket "b")) in
  fst r = Return tt /\
  objects (bucket (snd r)) = [object_of_item sample_item; object_of_item sample_item].
Proof.
  exact (enumerate_twice_records_twice (anonymous (listing_client [full_page [sample_item]]))
           (initial_world (existing_bucket "b")) [[sample_item]] eq_refl
           (fun _ => eq_refl)).
Defined.

(** ** Construction and sequencing *)

(** X18: the service works with credentials exactly when it was not forced to
    do without and the session holds credentials with an access key; it then
    uses the signed client, and the unsigned one in every other case. *)
Theorem S3Service_init_mode (forceNoCreds : bool) (credentials : option Credentials)
    (signed unsigned : S3Client) :
  let self := S3Service_init forceNoCreds credentials signed unsigned in
  (aws_creds_configured self = true <->
   forceNoCreds = false /\
   exists c k, credentials = Some c /\ access_key c = Some k) /\
  s3_client self = (if aws_creds_configured self then signed else unsigned).
Proof.
  unfold S3Service_init.
  destruct forceNoCreds; cbn [orb].
  - split; [|reflexivity]. split; [discriminate | intros [H _]; discriminate].
  - destruct credentials as [[[k|]]|]; cbn.
    + split; [|reflexivity]. split; [|reflexivity].
      intros _. split; [reflexivity|]. eauto.
    + split; [|reflexivity]. split; [discriminate|].
      intros (_ & c & k & Hc & Hk). inversion Hc; subst. discriminate.
    + split; [|reflexivity]. split; [discriminate|].
      intros (_ & c & k & Hc & _). discriminate.
Qed.

Lemma after_existence_check (self : S3Service) (w : world) (probe : M unit) :
  (forall w', exists_ (bucket w') = BucketExists.YES ->
              fst (probe w') <> Raise (ValueError "Bucket might not exist")) ->
  (forall w', exists_ (bucket w') <> BucketExists.YES ->
              probe w' = (Raise (ValueError "Bucket might not exist"), w')) ->
  fst (bind (check_bucket_exists self) (fun _ => probe) w)
    = Raise (ValueError "Bucket might not exist")
  <-> head_bucket (s3_client self) (requests w) (name (bucket w)) = Failed "404".
Proof.
  intros Hyes Hno. unfold bind. rewrite check_bucket_exists_run.
  destruct (head_bucket _ _ _) as [[]|code].
  - split; [|discriminate]. intros H. apply Hyes in H; [contradiction | reflexivity].
  - destruct (String.eqb_spec code "404") as [->|Hne].
    + split; [reflexivity|]. intros _. rewrite Hno; [reflexivity | simpl; discriminate].
    + split; [|congruence]. intros H. apply Hyes in H; [contradiction | reflexivity].
Qed.

(** X19: run after the existence probe, each permission probe raises the
    ValueError "Bucket might not exist" exactly when the existence probe was
    answered with the error code "404". *)
Theorem probes_after_existence_check (self : S3Service) (timestamp : string) (w : world) :
  let after (probe : M unit) := fst (bind (check_bucket_exists self) (fun _ => probe) w) in
  let missing := head_bucket (s3_client self) (requests w) (name (bucket w)) = Failed "404" in
  (after (check_perm_read_acl self) = Raise (ValueError "Bucket might not exist")
   <-> missing) /\
  (after (check_perm_read self) = Raise (ValueError "Bucket might not exist")
   <-> missing) /\
  (after (check_perm_write self timestamp) = Raise (ValueError "Bucket might not exist")
   <-> missing) /\
  (after (check_perm_write_acl self) = Raise (ValueError "Bucket might not exist")
   <-> missing).
Proof.
  cbv zeta.
  split; [|split; [|split]]; apply after_existence_check.
  - intros w' Hex. rewrite (check_perm_read_acl_run self w' Hex).
    destruct (get_bucket_acl _ _ _); [discriminate|].
    destruct (access_denied_class _); discriminate.
  - intros w' Hex. apply not_YES_eqb in Hex.
    unfold check_perm_read_acl, bind, get_bucket. rewrite Hex. reflexivity.
  - intros w' Hex. rewrite (check_perm_read_run self w' Hex).
    destruct (list_objects_v2 _ _ _ _); [discriminate|].
    destruct (access_denied_class _); discriminate.
  - intros w' Hex. apply not_YES_eqb in Hex.
    unfold check_perm_read, bind, get_bucket. rewrite Hex. reflexivity.
  - intros w' Hex. rewrite (check_perm_write_run self timestamp w' Hex).
    destruct (put_object _ _ _ _ _);
      [destruct (delete_object _ _ _ _); [discriminate|]|];
      destruct (access_denied_class _); discriminate.
  - intros w' Hex. apply not_YES_eqb in Hex.
    unfold check_perm_write, bind, get_bucket. rewrite Hex. reflexivity.
  - intros w' Hex. rewrite (check_perm_write_acl_run self w' Hex).
    destruct (put_bucket_acl _ _ _); [discriminate|].
    destruct (access_denied_class _); discriminate.
  - intros w' Hex. apply not_YES_eqb in Hex.
    unfold check_perm_write_acl, bind, get_bucket. rewrite Hex. reflexivity.
Qed.

(** X20: on an existing bucket the ACL-read probe and the read probe each
    send exactly one request, whatever the answer: the ACL read of the bucket,
    and a listing of the bucket limited to zero keys. *)
Theorem read_probes_send_one_request (self : S3Service) (w : world) :
  exists_ (bucket w) = BucketExists.YES ->
  requests (snd (check_perm_read_acl self w))
    = requests w ++ [GetBucketAcl (name (bucket w))] /\
  requests (snd (check_perm_read self w))
    = requests w ++ [ListObjectsV2 (name (bucket w)) (Some 0)].
Proof.
  intros Hex. split.
  - rewrite (check_perm_read_acl_run self w Hex).
    destruct (get_bucket_acl _ _ _) as [acl|code]; [reflexivity|].
    destruct (access_denied_class code); reflexivity.
  - rewrite (check_perm_read_run self w Hex).
    destruct (list_objects_v2 _ _ _ _) as [[]|code]; [reflexivity|].
    destruct (access_denied_class code); reflexivity.
Qed.

Lemma read_probes_send_one_request_witness :
  requests (snd (check_perm_read_acl (anonymous closed_client)
                   (initial_world (existing_bucket "b")))) = [GetBucketAcl "b"] /\
  requests (snd (check_perm_read (anonymous closed_client)
                   (initial_world (existing_bucket "b")))) = [ListObjectsV2 "b" (Some 0)].
Proof.
  exact (read_probes_send_one_request (anonymous closed_client)
           (initial_world (existing_bucket "b")) eq_refl).
Defined.

Lemma set_foundACL_same (b : s3Bucket) (acl : option ACL) :
  foundACL b = acl -> set_foundACL acl b = b.
Proof. intros <-. destruct b. reflexivity. Qed.

(** X21: reading the ACL again is harmless while it does not change: on an
    existing bucket, two successful ACL reads answered with the same ACL leave
    the bucket exactly as the first one did. *)
Theorem check_perm_read_acl_repeat (self : S3Service) (w : world) (acl : ACL) :
  exists_ (bucket w) = BucketExists.YES ->
  (forall log, get_bucket_acl (s3_client self) log (name (bucket w)) = Ok acl) ->
  let once := check_perm_read_acl self w in
  let twice := bind (check_perm_read_acl self) (fun _ => check_perm_read_acl self) w in
  fst twice = Return tt /\ bucket (snd twice) = bucket (snd once).
Proof.
  intros Hex Hacl once twice. subst once twice. unfold bind.
  rewrite (check_perm_read_acl_run self w Hex), Hacl.
  destruct (parse_found_acl_identity (set_foundACL (Some acl) (bucket w)))
    as (H1 & H2 & H3 & _).
  rewrite check_perm_read_acl_run by (cbn [bucket]; rewrite H2; exact Hex).
  cbn [bucket requests stdout fst snd]. rewrite H1. cbn [name set_foundACL].
  rewrite Hacl. cbn [fst snd bucket].
  rewrite (set_foundACL_same _ (Some acl) H3), parse_found_acl_stable.
  split; reflexivity.
Qed.

Lemma check_perm_read_acl_repeat_witness :
  let self := anonymous open_client in
  let w := initial_world (existing_bucket "b") in
  fst (bind (check_perm_read_acl self) (fun _ => check_perm_read_acl self) w) = Return tt /\
  bucket (snd (bind (check_perm_read_acl self) (fun _ => check_perm_read_acl self) w))
    = bucket (snd (check_perm_read_acl self w)).
Proof.
  exact (check_perm_read_acl_repeat (anonymous open_client)
           (initial_world (existing_bucket "b")) empty_acl eq_refl (fun _ => eq_refl)).
Defined.
